(** * csgoverview: the demo parser of package [match] (src/match/match.go)

    A shallow embedding of [NewMatch], the event handlers it registers on the
    demo decoder and the per-frame loop [parseGameStates], followed by the
    properties of the effect timelines (grenade effects, shots, kill feed),
    of the round-phase tracker, of the countdown timer and of the error
    paths.

    Conventions.  Go's [int] and [int64] are 64-bit two's complement
    integers, modelled as [Z] with the wrap-around written where the source
    computes; [float64] is Rocq's primitive binary64 [float]; a
    [map[int][]T] is a [gmap Z (list T)]; a pointer that the source tests
    against [nil] is an [option]. *)

From Stdlib Require Import ZArith Lia List String Ascii Floats.
From stdpp Require Import base option list sorting gmap strings.

Open Scope Z_scope.

(** ** Machine integers *)

Module GoInt.

(** Two's complement reduction to [w] bits. *)
Definition wrap (w : Z) (x : Z) : Z := (x + 2 ^ (w - 1)) mod 2 ^ w - 2 ^ (w - 1).

Definition int (x : Z) : Z := wrap 64 x.
Definition int64 (x : Z) : Z := wrap 64 x.
Definition int32 (x : Z) : Z := wrap 32 x.
Definition int16 (x : Z) : Z := wrap 16 x.
Definition byte (x : Z) : Z := x mod 256.

Definition min_int : Z := - 2 ^ 63.
Definition max_int : Z := 2 ^ 63 - 1.
Definition min_int32 : Z := - 2 ^ 31.
Definition max_int32 : Z := 2 ^ 31 - 1.

Definition is_int (x : Z) : Prop := min_int <= x <= max_int.

End GoInt.

(** ** Floating point *)

Module GoFloat.

(** The integer part of a finite float, [None] for NaN and the infinities. *)
Definition trunc (f : float) : option Z :=
  match Prim2SF f with
  | S754_zero _ => Some 0
  | S754_finite s m e =>
      let mag := match e with
                 | Zneg p => Z.shiftr (Zpos m) (Zpos p)
                 | _ => Z.shiftl (Zpos m) e
                 end in
      Some (if s then - mag else mag)
  | S754_infinity _ | S754_nan => None
  end.

(** Conversion [int(f)] / [int64(f)] of a float64: the fraction is
    discarded.  When the truncated value is not representable the language
    leaves the result to the implementation; the model takes what the
    amd64 conversion instruction returns, the minimum integer. *)
Definition to_int (f : float) : Z :=
  match trunc f with
  | Some n => if (GoInt.min_int <=? n) && (n <=? GoInt.max_int) then n else GoInt.min_int
  | None => GoInt.min_int
  end.

(** Conversion [int32(f)], with the same convention. *)
Definition to_int32 (f : float) : Z :=
  match trunc f with
  | Some n => if (GoInt.min_int32 <=? n) && (n <=? GoInt.max_int32) then n else GoInt.min_int32
  | None => GoInt.min_int32
  end.

(** An integer of magnitude at most 2^53 as a float. *)
Definition of_Z (n : Z) : float := SF2Prim (binary_normalize prec emax n 0 false).

(** [math.Round]: the nearest integer, halves away from zero; NaN, the
    infinities and the zeros are returned as they are. *)
Definition Round (f : float) : float :=
  match Prim2SF f with
  | S754_finite s m (Zneg p) =>
      let q := Z.shiftr (Zpos m) (Zpos p) in
      let n := if Z.testbit (Zpos m) (Zpos p - 1) then q + 1 else q in
      if n =? 0 then (if s then neg_zero else zero)
      else of_Z (if s then - n else n)
  | _ => f
  end.

Definition IsNaN (f : float) : bool := PrimFloat.is_nan f.

(** A float64 rounded to float32 (nearest, ties to even), kept as the
    binary32 value it denotes. *)
Definition float32 : Type := spec_float.

Definition to_float32 (f : float) : float32 :=
  match Prim2SF f with
  | S754_finite s m e => binary_round 24 128 s m e
  | x => x
  end.

End GoFloat.

Abbreviation float32 := GoFloat.float32.

(** ** time.Duration: an int64 count of nanoseconds *)

Module time.
Definition Duration : Type := Z.
Definition Second : Duration := 1000000000.
End time.

(** ** strconv.Atoi

    The value [strconv.Atoi] returns; the callers below drop its error.  A
    syntax error gives 0; a value out of range gives the nearest
    representable integer. *)

Module strconv.

Definition digit (c : ascii) : option Z :=
  let n := Z.of_N (N_of_ascii c) in
  if (48 <=? n) && (n <=? 57) then Some (n - 48) else None.

Fixpoint digits (s : string) (acc : Z) : option Z :=
  match s with
  | EmptyString => Some acc
  | String c s' =>
      match digit c with
      | Some d => digits s' (10 * acc + d)
      | None => None
      end
  end.

Definition Atoi (s : string) : Z :=
  let '(neg, body) :=
    match s with
    | String "+"%char r => (false, r)
    | String "-"%char r => (true, r)
    | _ => (false, s)
    end in
  match body with
  | EmptyString => 0
  | _ =>
      match digits body 0 with
      | None => 0
      | Some n =>
          if neg then Z.max GoInt.min_int (- n) else Z.min GoInt.max_int n
      end
  end.

End strconv.

(** ** The decoder library, as far as this package reads it

    Types of demoinfocs-golang (packages common and events) restricted to the
    fields and methods used in match.go.  A method without arguments is a
    field holding its result. *)

Module r3.
Record Vector := { X : float; Y : float }.
End r3.

Module demoinfo.

Inductive Team := TeamUnassigned | TeamSpectators | TeamTerrorists | TeamCounterTerrorists.

(** [EquipmentType] and [EquipmentClass] are integer enumerations; the
    class of a type is its hundreds, rounded up. *)
Definition EquipmentType : Type := Z.
Definition EquipmentClass : Type := Z.

Definition EqClassUnknown : EquipmentClass := 0.
Definition EqClassPistols : EquipmentClass := 1.
Definition EqClassSMG : EquipmentClass := 2.
Definition EqClassHeavy : EquipmentClass := 3.
Definition EqClassRifle : EquipmentClass := 4.
Definition EqClassEquipment : EquipmentClass := 5.
Definition EqClassGrenade : EquipmentClass := 6.

Definition EqAK47 : EquipmentType := 303.
Definition EqAWP : EquipmentType := 309.
Definition EqBomb : EquipmentType := 404.
Definition EqFlash : EquipmentType := 504.

Definition Class (e : EquipmentType) : EquipmentClass := Z.quot (GoInt.int (e + 100 - 1)) 100.

Record Equipment := { Type_ : EquipmentType; AmmoReserve : Z }.

Record Player := {
  Name : string;
  SteamID64 : Z;
  Team_ : Team;
  Position : r3.Vector;
  LastAlivePosition : r3.Vector;
  ViewDirectionX : float32;
  FlashDurationTime : time.Duration;
  FlashDurationTimeRemaining : time.Duration;
  Weapons : list Equipment;
  Health : Z;
  Armor : Z;
  Money : Z;
  Kills : Z;
  Deaths : Z;
  Assists : Z;
  IsAlive : bool;
  IsDefusing : bool;
  HasHelmet : bool;
  HasDefuseKit : bool
}.

Record GrenadeProjectile := { gp_Position : r3.Vector; WeaponInstance : Equipment }.

(** [inferno.Fires().Active().ConvexHull2D()], computed by the decoder. *)
Record Inferno := { ConvexHull2D : list r3.Vector }.

Record Bomb := { Carrier : option Player; bomb_Position : r3.Vector }.

Record TeamState := { ClanName : string; Score : Z }.

Record GameState := {
  IngameTick : Z;
  IsWarmupPeriod : bool;
  ConVars : gmap string string;
  Playing : list Player;
  GrenadeProjectiles : list GrenadeProjectile;
  Infernos : list Inferno;
  TheBomb : Bomb;
  TeamCounterTerrorists_ : TeamState;
  TeamTerrorists_ : TeamState
}.

End demoinfo.

Module event.

Record GrenadeEvent := { GrenadeType : demoinfo.EquipmentType; Position : r3.Vector }.

Record WeaponFire := { Shooter : option demoinfo.Player; Weapon : demoinfo.Equipment }.

Record Kill := {
  Killer : option demoinfo.Player;
  Victim : option demoinfo.Player;
  kill_Weapon : demoinfo.Equipment
}.

(** The event types a handler is registered for; [Other] stands for every
    other type the decoder dispatches. *)
Inductive Event :=
| RoundStart
| MatchStart
| GameHalfEnded
| WeaponFireEv (e : WeaponFire)
| FlashExplode (e : GrenadeEvent)
| HeExplode (e : GrenadeEvent)
| SmokeStart (e : GrenadeEvent)
| KillEv (e : Kill)
| RoundFreezetimeEnd
| BombPlanted
| RoundEnd
| AnnouncementWinPanelMatch
| Other.

End event.

(** ** Package common: the types the renderer receives

    Field by field as the struct literals of match.go build them. *)

Module common.

Inductive Phase :=
| PhaseWarmup | PhaseFreezetime | PhaseRegular | PhasePlanted | PhaseRestart | PhaseHalftime.

Record Point := { X : float32; Y : float32 }.

Record GrenadeEffect := {
  ge_Position : Point;
  GrenadeType : demoinfo.EquipmentType;
  Lifetime : Z
}.

Record Shot := { shot_Position : Point; shot_ViewDirectionX : float32; IsAwpShot : bool }.

Record Kill := {
  KillerName : string;
  KillerTeam : demoinfo.Team;
  VictimName : string;
  VictimTeam : demoinfo.Team;
  Weapon : demoinfo.EquipmentType
}.

Record Player := {
  Name : string;
  SteamID64 : Z;
  Team_ : demoinfo.Team;
  Position : Point;
  LastAlivePosition : Point;
  ViewDirectionX : float32;
  FlashDuration : time.Duration;
  FlashTimeRemaining : time.Duration;
  Inventory : list demoinfo.EquipmentType;
  Health : Z;
  Armor : Z;
  Money : Z;
  Kills : Z;
  Deaths : Z;
  Assists : Z;
  IsAlive : bool;
  IsDefusing : bool;
  HasHelmet : bool;
  HasDefuseKit : bool;
  HasBomb : bool
}.

Record GrenadeProjectile := { gp_Position : Point; Type_ : demoinfo.EquipmentType }.

Record Inferno := { ConvexHull2D : list Point }.

Record Bomb := { bomb_Position : Point; IsBeingCarried : bool }.

Record TeamState := { ClanName : string; Score : Z }.

Record Timer := { TimeRemaining : time.Duration; Phase_ : Phase }.

Record OverviewState := {
  IngameTick : Z;
  Players : list Player;
  Grenades : list GrenadeProjectile;
  Infernos : list Inferno;
  Bomb_ : Bomb;
  TeamCounterTerrorists : TeamState;
  TeamTerrorists : TeamState;
  Timer_ : Timer
}.

End common.

(** ** The match under construction *)

Definition flashEffectLifetime : Z := 10.
Definition heEffectLifetime : Z := 10.
Definition killfeedLifetime : Z := 10.
Definition c4timer : Z := 40.

Record Match := {
  MapName : string;
  MapPZero : common.Point;
  MapScale : float32;
  HalfStarts : list Z;
  RoundStarts : list Z;
  GrenadeEffects : gmap Z (list common.GrenadeEffect);
  FrameRate : float;
  TickRate : float;
  FrameRateRounded : Z;
  States : list common.OverviewState;
  SmokeEffectLifetime : Z;
  Killfeed : gmap Z (list common.Kill);
  Shots : gmap Z (list common.Shot);
  currentPhase : common.Phase;
  latestTimerEventTime : time.Duration
}.

(** Assignments to single fields of the match. *)

Definition set_HalfStarts (v : list Z) (m : Match) : Match :=
  Build_Match (MapName m) (MapPZero m) (MapScale m) v (RoundStarts m) (GrenadeEffects m)
    (FrameRate m) (TickRate m) (FrameRateRounded m) (States m) (SmokeEffectLifetime m)
    (Killfeed m) (Shots m) (currentPhase m) (latestTimerEventTime m).

Definition set_RoundStarts (v : list Z) (m : Match) : Match :=
  Build_Match (MapName m) (MapPZero m) (MapScale m) (HalfStarts m) v (GrenadeEffects m)
    (FrameRate m) (TickRate m) (FrameRateRounded m) (States m) (SmokeEffectLifetime m)
    (Killfeed m) (Shots m) (currentPhase m) (latestTimerEventTime m).

Definition set_GrenadeEffects (v : gmap Z (list common.GrenadeEffect)) (m : Match) : Match :=
  Build_Match (MapName m) (MapPZero m) (MapScale m) (HalfStarts m) (RoundStarts m) v
    (FrameRate m) (TickRate m) (FrameRateRounded m) (States m) (SmokeEffectLifetime m)
    (Killfeed m) (Shots m) (currentPhase m) (latestTimerEventTime m).

Definition set_States (v : list common.OverviewState) (m : Match) : Match :=
  Build_Match (MapName m) (MapPZero m) (MapScale m) (HalfStarts m) (RoundStarts m)
    (GrenadeEffects m) (FrameRate m) (TickRate m) (FrameRateRounded m) v
    (SmokeEffectLifetime m) (Killfeed m) (Shots m) (currentPhase m) (latestTimerEventTime m).

Definition set_Killfeed (v : gmap Z (list common.Kill)) (m : Match) : Match :=
  Build_Match (MapName m) (MapPZero m) (MapScale m) (HalfStarts m) (RoundStarts m)
    (GrenadeEffects m) (FrameRate m) (TickRate m) (FrameRateRounded m) (States m)
    (SmokeEffectLifetime m) v (Shots m) (currentPhase m) (latestTimerEventTime m).

Definition set_Shots (v : gmap Z (list common.Shot)) (m : Match) : Match :=
  Build_Match (MapName m) (MapPZero m) (MapScale m) (HalfStarts m) (RoundStarts m)
    (GrenadeEffects m) (FrameRate m) (TickRate m) (FrameRateRounded m) (States m)
    (SmokeEffectLifetime m) (Killfeed m) v (currentPhase m) (latestTimerEventTime m).

Definition set_currentPhase (v : common.Phase) (m : Match) : Match :=
  Build_Match (MapName m) (MapPZero m) (MapScale m) (HalfStarts m) (RoundStarts m)
    (GrenadeEffects m) (FrameRate m) (TickRate m) (FrameRateRounded m) (States m)
    (SmokeEffectLifetime m) (Killfeed m) (Shots m) v (latestTimerEventTime m).

Definition set_latestTimerEventTime (v : time.Duration) (m : Match) : Match :=
  Build_Match (MapName m) (MapPZero m) (MapScale m) (HalfStarts m) (RoundStarts m)
    (GrenadeEffects m) (FrameRate m) (TickRate m) (FrameRateRounded m) (States m)
    (SmokeEffectLifetime m) (Killfeed m) (Shots m) (currentPhase m) v.

(** [for i := lo; i < hi; i++ { body }], for a body that changes neither
    [i] nor the bound. *)
Definition for_range {S : Type} (lo hi : Z) (body : Z -> S -> S) (s : S) : S :=
  fold_left (fun s i => body i s) (seqZ lo (hi - lo)) s.

Definition point_of (v : r3.Vector) : common.Point :=
  {| common.X := GoFloat.to_float32 (r3.X v); common.Y := GoFloat.to_float32 (r3.Y v) |}.

(** ** Event handlers *)

Definition grenadeEffect (e : event.GrenadeEvent) (i : Z) : common.GrenadeEffect :=
  {| common.ge_Position := point_of (event.Position e);
     common.GrenadeType := event.GrenadeType e;
     common.Lifetime := GoInt.int32 i |}.

Definition grenadeEventHandler (lifetime : Z) (frame : Z) (e : event.GrenadeEvent)
    (m : Match) : Match :=
  let effectLifetime := lifetime in
  for_range 0 effectLifetime (fun i m =>
    let effect := grenadeEffect e i in
    match GrenadeEffects m !! GoInt.int (frame + i) with
    | Some effects =>
        set_GrenadeEffects (<[GoInt.int (frame + i) := effects ++ [effect]]> (GrenadeEffects m)) m
    | None =>
        set_GrenadeEffects (<[GoInt.int (frame + i) := [effect]]> (GrenadeEffects m)) m
    end) m.

Definition shotOf (shooter : demoinfo.Player) (isAwpShot : bool) : common.Shot :=
  {| common.shot_Position := point_of (demoinfo.Position shooter);
     common.shot_ViewDirectionX := demoinfo.ViewDirectionX shooter;
     common.IsAwpShot := isAwpShot |}.

(** The number of frames a shot is shown for, as [weaponFireEventHandler]
    computes it from the frame rate. *)
Definition shotLifetime (frameRate : float) (isAwpShot : bool) : Z :=
  let lifetime := GoFloat.to_int ((frameRate + 1) / 32)%float in
  let lifetime := if lifetime =? 0 then 1 else lifetime in
  if isAwpShot then GoFloat.to_int ((frameRate + 1) / 8)%float else lifetime.

Definition weaponFireEventHandler (frame : Z) (e : event.WeaponFire) (m : Match) : Match :=
  match event.Shooter e with
  | None => m
  | Some shooter =>
      let class := demoinfo.Class (demoinfo.Type_ (event.Weapon e)) in
      if (class =? demoinfo.EqClassEquipment) || (class =? demoinfo.EqClassGrenade)
         || (class =? demoinfo.EqClassUnknown)
      then m
      else
        let isAwpShot := demoinfo.Type_ (event.Weapon e) =? demoinfo.EqAWP in
        let shot := shotOf shooter isAwpShot in
        let lifetime := shotLifetime (FrameRate m) isAwpShot in
        for_range 0 lifetime (fun i m =>
          match Shots m !! GoInt.int (frame + i) with
          | Some shots => set_Shots (<[GoInt.int (frame + i) := shots ++ [shot]]> (Shots m)) m
          | None => set_Shots (<[GoInt.int (frame + i) := [shot]]> (Shots m)) m
          end) m
  end.

(** The kill-feed entry the [event.Kill] handler builds. *)
Definition killOf (e : event.Kill) : common.Kill :=
  let '(killerName, killerTeam) :=
    match event.Killer e with
    | None => ("World"%string, demoinfo.TeamUnassigned)
    | Some killer => (demoinfo.Name killer, demoinfo.Team_ killer)
    end in
  let '(victimName, victimTeam) :=
    match event.Victim e with
    | None => ("World"%string, demoinfo.TeamUnassigned)
    | Some victim => (demoinfo.Name victim, demoinfo.Team_ victim)
    end in
  {| common.KillerName := killerName;
     common.KillerTeam := killerTeam;
     common.VictimName := victimName;
     common.VictimTeam := victimTeam;
     common.Weapon := demoinfo.Type_ (event.kill_Weapon e) |}.

(** The body of the kill handler's loop.  The bucket read into [kills] is
    appended to after the map entry was replaced by its tail, so the
    replacement is overwritten. *)
Definition killfeedStep (frame : Z) (kill : common.Kill) (i : Z) (m : Match) : Match :=
  match Killfeed m !! GoInt.int (frame + i) with
  | Some kills =>
      let m1 :=
        if 5 <? Z.of_nat (length kills)
        then set_Killfeed (<[GoInt.int (frame + i) :=
                               drop 1 (default [] (Killfeed m !! GoInt.int (frame + i)))]>
                             (Killfeed m)) m
        else m in
      set_Killfeed (<[GoInt.int (frame + i) := kills ++ [kill]]> (Killfeed m1)) m1
  | None => set_Killfeed (<[GoInt.int (frame + i) := [kill]]> (Killfeed m)) m
  end.

Definition killEventHandler (frame : Z) (e : event.Kill) (m : Match) : Match :=
  let kill := killOf e in
  for_range 0 (GoInt.int (FrameRateRounded m * killfeedLifetime)) (killfeedStep frame kill) m.

(** What a handler reads from the parser while it runs. *)
Record Parser := { CurrentFrame : Z; CurrentTime : time.Duration }.

(** A registered handler: it acts on the events of its own type and leaves
    the match alone on every other one. *)
Definition Handler : Type := Parser -> event.Event -> Match -> Match.

Definition onRoundStart_frame : Handler := fun parser ev m =>
  match ev with
  | event.RoundStart => set_RoundStarts (RoundStarts m ++ [CurrentFrame parser]) m
  | _ => m
  end.

Definition onMatchStart : Handler := fun parser ev m =>
  match ev with
  | event.MatchStart => set_HalfStarts (HalfStarts m ++ [CurrentFrame parser]) m
  | _ => m
  end.

Definition onGameHalfEnded_frame : Handler := fun parser ev m =>
  match ev with
  | event.GameHalfEnded => set_HalfStarts (HalfStarts m ++ [CurrentFrame parser]) m
  | _ => m
  end.

Definition onWeaponFire : Handler := fun parser ev m =>
  match ev with
  | event.WeaponFireEv e =>
      let frame := CurrentFrame parser in
      weaponFireEventHandler frame e m
  | _ => m
  end.

Definition onFlashExplode : Handler := fun parser ev m =>
  match ev with
  | event.FlashExplode e =>
      let frame := CurrentFrame parser in
      grenadeEventHandler flashEffectLifetime frame e m
  | _ => m
  end.

Definition onHeExplode : Handler := fun parser ev m =>
  match ev with
  | event.HeExplode e =>
      let frame := CurrentFrame parser in
      grenadeEventHandler heEffectLifetime frame e m
  | _ => m
  end.

Definition onSmokeStart : Handler := fun parser ev m =>
  match ev with
  | event.SmokeStart e =>
      let frame := CurrentFrame parser in
      grenadeEventHandler (SmokeEffectLifetime m) frame e m
  | _ => m
  end.

Definition onKill : Handler := fun parser ev m =>
  match ev with
  | event.KillEv e =>
      let frame := CurrentFrame parser in
      killEventHandler frame e m
  | _ => m
  end.

Definition onRoundStart_phase : Handler := fun parser ev m =>
  match ev with
  | event.RoundStart =>
      set_latestTimerEventTime (CurrentTime parser) (set_currentPhase common.PhaseFreezetime m)
  | _ => m
  end.

Definition onRoundFreezetimeEnd : Handler := fun parser ev m =>
  match ev with
  | event.RoundFreezetimeEnd =>
      set_latestTimerEventTime (CurrentTime parser) (set_currentPhase common.PhaseRegular m)
  | _ => m
  end.

Definition onBombPlanted : Handler := fun parser ev m =>
  match ev with
  | event.BombPlanted =>
      set_latestTimerEventTime (CurrentTime parser) (set_currentPhase common.PhasePlanted m)
  | _ => m
  end.

Definition onRoundEnd : Handler := fun parser ev m =>
  match ev with
  | event.RoundEnd =>
      set_latestTimerEventTime (CurrentTime parser) (set_currentPhase common.PhaseRestart m)
  | _ => m
  end.

Definition onGameHalfEnded_phase : Handler := fun parser ev m =>
  match ev with
  | event.GameHalfEnded =>
      set_latestTimerEventTime (CurrentTime parser) (set_currentPhase common.PhaseHalftime m)
  | _ => m
  end.

Definition onAnnouncementWinPanelMatch : Handler := fun parser ev m =>
  match ev with
  | event.AnnouncementWinPanelMatch => set_HalfStarts (HalfStarts m ++ [CurrentFrame parser]) m
  | _ => m
  end.

Definition onRoundStart_clear : Handler := fun parser ev m =>
  match ev with
  | event.RoundStart =>
      let frame := CurrentFrame parser in
      for_range 1 (SmokeEffectLifetime m) (fun i m =>
        set_GrenadeEffects (<[GoInt.int (frame + i) := []]> (GrenadeEffects m)) m) m
  | _ => m
  end.

(** The handlers in the order [registerEventHandlers] registers them. *)
Definition registerEventHandlers : list Handler :=
  [ onRoundStart_frame; onMatchStart; onGameHalfEnded_frame; onWeaponFire;
    onFlashExplode; onHeExplode; onSmokeStart; onKill;
    onRoundStart_phase; onRoundFreezetimeEnd; onBombPlanted; onRoundEnd;
    onGameHalfEnded_phase; onAnnouncementWinPanelMatch; onRoundStart_clear ].

(** One event as the decoder dispatches it: the event and the parser's
    frame and time while its handlers run. *)
Record Dispatch := { at_ : Parser; ev : event.Event }.

(** The decoder calls the registered handlers in registration order. *)
Definition dispatch (d : Dispatch) (m : Match) : Match :=
  fold_left (fun m (h : Handler) => h (at_ d) (ev d) m) registerEventHandlers m.

Definition dispatchAll (ds : list Dispatch) (m : Match) : Match :=
  fold_left (fun m d => dispatch d m) ds m.

(** ** Snapshot assembly *)

Definition isWeaponOrGrenade (e : demoinfo.EquipmentType) : bool :=
  (demoinfo.Class e =? demoinfo.EqClassSMG) ||
  (demoinfo.Class e =? demoinfo.EqClassHeavy) ||
  (demoinfo.Class e =? demoinfo.EqClassRifle) ||
  (demoinfo.Class e =? demoinfo.EqClassPistols) ||
  (demoinfo.Class e =? demoinfo.EqClassGrenade).

(** The loop over [p.Weapons()]: the bomb flag and the unsorted inventory. *)
Definition scanWeapons (ws : list demoinfo.Equipment) : bool * list demoinfo.EquipmentType :=
  fold_left (fun '(hasBomb, inventory) w =>
    let hasBomb := if demoinfo.Type_ w =? demoinfo.EqBomb then true else hasBomb in
    let inventory :=
      if isWeaponOrGrenade (demoinfo.Type_ w) then
        let inventory :=
          if (demoinfo.Type_ w =? demoinfo.EqFlash) && (0 <? demoinfo.AmmoReserve w)
          then inventory ++ [demoinfo.Type_ w] else inventory in
        inventory ++ [demoinfo.Type_ w]
      else inventory in
    (hasBomb, inventory)) ws (false, []).

Definition playerOf (p : demoinfo.Player) : common.Player :=
  let '(hasBomb, inventory) := scanWeapons (demoinfo.Weapons p) in
  let inventory := merge_sort Z.le inventory in
  {| common.Name := demoinfo.Name p;
     common.SteamID64 := demoinfo.SteamID64 p;
     common.Team_ := demoinfo.Team_ p;
     common.Position := point_of (demoinfo.Position p);
     common.LastAlivePosition := point_of (demoinfo.LastAlivePosition p);
     common.ViewDirectionX := demoinfo.ViewDirectionX p;
     common.FlashDuration := demoinfo.FlashDurationTime p;
     common.FlashTimeRemaining := demoinfo.FlashDurationTimeRemaining p;
     common.Inventory := inventory;
     common.Health := GoInt.int16 (demoinfo.Health p);
     common.Armor := GoInt.int16 (demoinfo.Armor p);
     common.Money := GoInt.int16 (demoinfo.Money p);
     common.Kills := GoInt.int16 (demoinfo.Kills p);
     common.Deaths := GoInt.int16 (demoinfo.Deaths p);
     common.Assists := GoInt.int16 (demoinfo.Assists p);
     common.IsAlive := demoinfo.IsAlive p;
     common.IsDefusing := demoinfo.IsDefusing p;
     common.HasHelmet := demoinfo.HasHelmet p;
     common.HasDefuseKit := demoinfo.HasDefuseKit p;
     common.HasBomb := hasBomb |}.

Definition grenadeOf (g : demoinfo.GrenadeProjectile) : common.GrenadeProjectile :=
  {| common.gp_Position := point_of (demoinfo.gp_Position g);
     common.Type_ := demoinfo.Type_ (demoinfo.WeaponInstance g) |}.

Definition infernoOf (i : demoinfo.Inferno) : common.Inferno :=
  {| common.ConvexHull2D := point_of <$> demoinfo.ConvexHull2D i |}.

Definition bombOf (b : demoinfo.Bomb) : common.Bomb :=
  let isBeingCarried := match demoinfo.Carrier b with Some _ => true | None => false end in
  {| common.bomb_Position := point_of (demoinfo.bomb_Position b);
     common.IsBeingCarried := isBeingCarried |}.

Definition teamOf (t : demoinfo.TeamState) : common.TeamState :=
  {| common.ClanName := demoinfo.ClanName t;
     common.Score := GoInt.byte (demoinfo.Score t) |}.

(** [gameState.ConVars()[name]]: the empty string for a name that is not set. *)
Definition conVar (gs : demoinfo.GameState) (name : string) : string :=
  default ""%string (demoinfo.ConVars gs !! name).

(** One result of [parser.ParseNextFrame()]: the events dispatched during
    the call, the two values returned, and what the parser's accessors give
    after it. *)
Record FrameCall := {
  dispatched : list Dispatch;
  ok : bool;
  err : option string;
  gameState : demoinfo.GameState;
  now : time.Duration
}.

Module meta.
Record Map := { PZero : r3.Vector; Scale : float }.
Definition zero : Map := {| PZero := {| r3.X := 0%float; r3.Y := 0%float |}; Scale := 0%float |}.
End meta.

Record Header := { header_FrameRate : float; header_MapName : string; PlaybackFrames : Z }.

(** A demo file as [NewMatch] meets it: whether it opens, the header the
    decoder parses from it, the decoder's tick rate, and the successive
    results of [ParseNextFrame]. *)
Record Demo := {
  Open : option string;
  ParseHeader : string + Header;
  parser_TickRate : float;
  frames : list FrameCall
}.

(** How a call ends: it returns a value, or a run-time panic unwinds it. *)
Inductive Run (A : Type) : Type :=
| Returns (a : A)
| Panics.

Arguments Returns {A} a.
Arguments Panics {A}.

(** [make([]common.OverviewState, 0, playbackFrames)], the first statement
    of [parseGameStates]: a negative capacity panics.  The header holds a
    32-bit number of frames, so a capacity beyond the largest allocation
    does not arise; running out of memory is not modelled. *)
Definition makeStates (playbackFrames : Z) : Run (list common.OverviewState) :=
  if playbackFrames <? 0 then Panics else Returns [].

Section Program.

(** Declarations this package uses and does not contain: the zero value
    of [common.Phase], the decoder's table of maps, and
    [strconv.ParseFloat(s, 64)] (the value it returns; its error is
    dropped here as well). *)
Variable phase0 : common.Phase.
Variable MapNameToMap : gmap string meta.Map.
Variable ParseFloat : string -> float.

(** The timer of a frame: the [if]/[switch] at the end of the loop body
    of [parseGameStates]. *)
Definition timerOf (gs : demoinfo.GameState) (now : time.Duration) (m : Match) : common.Timer :=
  let timer := {| common.TimeRemaining := 0; common.Phase_ := phase0 |} in
  if demoinfo.IsWarmupPeriod gs then
    {| common.TimeRemaining := 0; common.Phase_ := common.PhaseWarmup |}
  else
    match currentPhase m with
    | common.PhaseFreezetime =>
        let freezetime := strconv.Atoi (conVar gs "mp_freezetime") in
        let remaining :=
          GoInt.int64 (GoInt.int64 (freezetime * time.Second)
                       - GoInt.int64 (now - latestTimerEventTime m)) in
        {| common.TimeRemaining := remaining; common.Phase_ := common.PhaseFreezetime |}
    | common.PhaseRegular =>
        let roundtime := ParseFloat (conVar gs "mp_roundtime_defuse") in
        let remaining :=
          GoInt.int64 (GoInt.int64 (GoFloat.to_int (roundtime * 60)%float * time.Second)
                       - GoInt.int64 (now - latestTimerEventTime m)) in
        {| common.TimeRemaining := remaining; common.Phase_ := common.PhaseRegular |}
    | common.PhasePlanted =>
        let bombtime := c4timer in
        let remaining :=
          GoInt.int64 (GoInt.int64 (bombtime * time.Second)
                       - GoInt.int64 (now - latestTimerEventTime m)) in
        {| common.TimeRemaining := remaining; common.Phase_ := common.PhasePlanted |}
    | common.PhaseRestart =>
        let restartDelay := strconv.Atoi (conVar gs "mp_round_restart_delay") in
        let remaining :=
          GoInt.int64 (GoInt.int64 (restartDelay * time.Second)
                       - GoInt.int64 (now - latestTimerEventTime m)) in
        {| common.TimeRemaining := remaining; common.Phase_ := common.PhaseRestart |}
    | common.PhaseHalftime =>
        let halftimeDuration := strconv.Atoi (conVar gs "mp_halftime_duration") in
        let remaining :=
          GoInt.int64 (GoInt.int64 (halftimeDuration * time.Second)
                       - GoInt.int64 (now - latestTimerEventTime m)) in
        {| common.TimeRemaining := remaining; common.Phase_ := common.PhaseRestart |}
    | common.PhaseWarmup => timer
    end.

(** The snapshot built by one pass of the loop body. *)
Definition stateOf (c : FrameCall) (m : Match) : common.OverviewState :=
  let gs := gameState c in
  {| common.IngameTick := demoinfo.IngameTick gs;
     common.Players := playerOf <$> demoinfo.Playing gs;
     common.Grenades := grenadeOf <$> demoinfo.GrenadeProjectiles gs;
     common.Infernos := infernoOf <$> demoinfo.Infernos gs;
     common.Bomb_ := bombOf (demoinfo.TheBomb gs);
     common.TeamCounterTerrorists := teamOf (demoinfo.TeamCounterTerrorists_ gs);
     common.TeamTerrorists := teamOf (demoinfo.TeamTerrorists_ gs);
     common.Timer_ := timerOf gs (now c) m |}.

(** What [parseGameStates] leaves behind: the snapshots, the match as the
    handlers changed it, and the lines written to the log. *)
Record Parsed := { states : list common.OverviewState; after : Match; logged : list string }.

(** [for ok, err := parser.ParseNextFrame(); ok; ok, err = parser.ParseNextFrame()]
    over the results the decoder gives.  The handlers run inside every
    call; a list that ends without [ok = false] is a decoder that stops
    there. *)
Fixpoint parseLoop (calls : list FrameCall) (acc : Parsed) : Parsed :=
  match calls with
  | [] => acc
  | c :: rest =>
      let m := dispatchAll (dispatched c) (after acc) in
      if ok c then
        match err c with
        | Some e =>
            parseLoop rest {| states := states acc; after := m; logged := logged acc ++ [e] |}
        | None =>
            parseLoop rest
              {| states := states acc ++ [stateOf c m]; after := m; logged := logged acc |}
        end
      else {| states := states acc; after := m; logged := logged acc |}
  end.

(** The loop of [parseGameStates], on the empty slice its first statement
    allocated. *)
Definition parseGameStates (calls : list FrameCall) (m : Match) : Parsed :=
  parseLoop calls {| states := []; after := m; logged := [] |}.

(** [parseGameStates] from its first statement: the slice is allocated
    with the capacity the header gives, then the loop runs. *)
Definition parseGameStatesOf (header : Header) (calls : list FrameCall) (m : Match)
    : Run Parsed :=
  match makeStates (PlaybackFrames header) with
  | Panics => Panics
  | Returns states => Returns (parseLoop calls {| states := states; after := m; logged := [] |})
  end.

Definition errFramerate : string :=
  "could not parse Framerate from demo." ++
  "Please provide a fallback value (command-line option -framerate)".

Definition errTickrate : string :=
  "could not parse Tickrate from demo." ++
  "Please provide a fallback value (command-line option -tickrate)".

(** [NewMatch]: [inl err] is the result [(nil, err)], [inr match] the
    result [(match, nil)]; the second component is what was logged.  The
    call panics when [parseGameStates] does. *)
Definition NewMatch (demo : Demo) (fallbackFrameRate fallbackTickRate : float)
    : Run ((string + Match) * list string) :=
  match Open demo with
  | Some e => Returns (inl e, [])
  | None =>
      match ParseHeader demo with
      | inl e => Returns (inl e, [])
      | inr header =>
          let frameRate := header_FrameRate header in
          let needFR := GoFloat.IsNaN frameRate || (frameRate =? 0)%float in
          if needFR && (fallbackFrameRate =? -1)%float then Returns (inl errFramerate, [])
          else
            let frameRate := if needFR then fallbackFrameRate else frameRate in
            let tickRate := parser_TickRate demo in
            let needTR := GoFloat.IsNaN tickRate || (tickRate =? 0)%float in
            if needTR && (fallbackTickRate =? -1)%float then Returns (inl errTickrate, [])
            else
              let tickRate := if needTR then fallbackTickRate else tickRate in
              let mapName := header_MapName header in
              let map := default meta.zero (MapNameToMap !! mapName) in
              let m :=
                {| MapName := mapName;
                   MapPZero := point_of (meta.PZero map);
                   MapScale := GoFloat.to_float32 (meta.Scale map);
                   HalfStarts := [];
                   RoundStarts := [];
                   GrenadeEffects := ∅;
                   FrameRate := frameRate;
                   TickRate := tickRate;
                   FrameRateRounded := GoFloat.to_int (GoFloat.Round frameRate);
                   States := [];
                   SmokeEffectLifetime := GoFloat.to_int32 (18 * frameRate)%float;
                   Killfeed := ∅;
                   Shots := ∅;
                   currentPhase := phase0;
                   latestTimerEventTime := 0 |} in
              match parseGameStatesOf header (frames demo) m with
              | Panics => Panics
              | Returns r => Returns (inr (set_States (states r) (after r)), logged r)
              end
      end
  end.

End Program.

(** * Properties *)

(** ** Integers *)

Lemma int_id (x : Z) : GoInt.is_int x -> GoInt.int x = x.
Proof.
  unfold GoInt.is_int, GoInt.min_int, GoInt.max_int, GoInt.int, GoInt.wrap.
  intros H. rewrite Z.mod_small; lia.
Qed.

Lemma int64_id (x : Z) : GoInt.is_int x -> GoInt.int64 x = x.
Proof. apply int_id. Qed.

Lemma int_is_int (x : Z) : GoInt.is_int (GoInt.int x).
Proof.
  unfold GoInt.is_int, GoInt.min_int, GoInt.max_int, GoInt.int, GoInt.wrap.
  pose proof (Z.mod_pos_bound (x + 2 ^ (64 - 1)) (2 ^ 64) ltac:(lia)). lia.
Qed.

(** ** Loops *)

Lemma for_range_ind {S : Type} (P : S -> Prop) lo hi (body : Z -> S -> S) s :
  P s ->
  (forall i s, lo <= i < hi -> P s -> P (body i s)) ->
  P (for_range lo hi body s).
Proof.
  intros Hs Hstep. unfold for_range.
  assert (Hin : forall i, i ∈ seqZ lo (hi - lo) -> lo <= i < hi)
    by (intros i Hi; apply elem_of_seqZ in Hi; lia).
  revert s Hs. induction (seqZ lo (hi - lo)) as [|i l IH]; intros s Hs; simpl; [done|].
  apply IH.
  - intros j Hj. apply Hin. by right.
  - apply Hstep; [apply Hin; by left | done].
Qed.

Lemma for_range_preserves {S A : Type} (proj : S -> A) lo hi (body : Z -> S -> S) s :
  (forall i s, proj (body i s) = proj s) ->
  proj (for_range lo hi body s) = proj s.
Proof.
  intros H. apply (for_range_ind (fun s' => proj s' = proj s)); [done|].
  intros i s' _ Hs'. by rewrite H.
Qed.

(** A loop whose body rewrites one field of the match is a fold on that
    field. *)
Lemma for_range_field {T : Type} (get : Match -> T) (set : T -> Match -> Match)
    (step : Z -> T -> T) lo hi (body : Z -> Match -> Match) m :
  (forall i m, body i m = set (step i (get m)) m) ->
  (forall v m, get (set v m) = v) ->
  (forall v v' m, set v (set v' m) = set v m) ->
  (forall m, set (get m) m = m) ->
  for_range lo hi body m = set (fold_left (fun t i => step i t) (seqZ lo (hi - lo)) (get m)) m.
Proof.
  intros Hbody Hgs Hss Hsg. unfold for_range.
  rewrite <- (Hsg m) at 1. generalize (get m) as t.
  induction (seqZ lo (hi - lo)) as [|i l IH]; intros t; simpl; [done|].
  rewrite Hbody, Hgs, Hss. apply IH.
Qed.

(** ** Frame-indexed buckets *)

Section Buckets.
Context {A : Type}.
Implicit Types (t : gmap Z (list A)) (k f : Z) (x : A).

(** The sequence stored for frame [f]: empty when the frame has no entry. *)
Definition bucket t f : list A := default [] (t !! f).

Definition append_at k x t : gmap Z (list A) := <[k := bucket t k ++ [x]]> t.

Lemma append_at_eq k x t :
  match t !! k with
  | Some l => <[k := l ++ [x]]> t
  | None => <[k := [x]]> t
  end = append_at k x t.
Proof. unfold append_at, bucket. by destruct (t !! k). Qed.

Lemma bucket_append_at k x t f :
  bucket (append_at k x t) f = bucket t f ++ (if decide (k = f) then [x] else []).
Proof.
  unfold append_at. unfold bucket at 1. destruct (decide (k = f)) as [->|Hne].
  - by rewrite lookup_insert_eq.
  - rewrite lookup_insert_ne by done. by rewrite app_nil_r.
Qed.

Lemma bucket_fold_append (key : Z -> Z) (mk : Z -> A) (l : list Z) t f :
  bucket (fold_left (fun t i => append_at (key i) (mk i) t) l t) f
  = bucket t f ++ (mk <$> filter (fun i => key i = f) l).
Proof.
  revert t. induction l as [|i l IH]; intros t; simpl.
  - by rewrite app_nil_r.
  - rewrite IH, bucket_append_at, filter_cons.
    destruct (decide (key i = f)); simpl.
    + by rewrite <- app_assoc.
    + by rewrite app_nil_r.
Qed.

Lemma bucket_fold_clear (key : Z -> Z) (l : list Z) t f :
  bucket (fold_left (fun t i => <[key i := []]> t) l t) f
  = if decide (Exists (fun i => key i = f) l) then [] else bucket t f.
Proof.
  revert t. induction l as [|i l IH]; intros t; cbn [fold_left].
  - rewrite decide_False; [done | by intros ?%Exists_nil].
  - rewrite IH. destruct (decide (Exists (fun i => key i = f) l)) as [H|H].
    + rewrite decide_True; [done | by right].
    + destruct (decide (key i = f)) as [<-|Hne].
      * rewrite decide_True by (by left). unfold bucket. by rewrite lookup_insert_eq.
      * rewrite decide_False.
        -- unfold bucket. by rewrite lookup_insert_ne.
        -- intros [?|?]%Exists_cons; done.
Qed.

End Buckets.

(** The frames [F, F+n) an effect of lifetime [n] is entered in, and its
    offset in each, when [F + i] does not leave the integers. *)
Lemma filter_window (F n f : Z) :
  0 <= F -> F + n <= 2 ^ 63 ->
  filter (fun i => GoInt.int (F + i) = f) (seqZ 0 n)
  = if decide (F <= f <= F + n - 1) then [f - F] else [].
Proof.
  intros HF Hn.
  assert (Hkey : forall i, i ∈ seqZ 0 n -> GoInt.int (F + i) = F + i).
  { intros i Hi%elem_of_seqZ. apply int_id.
    unfold GoInt.is_int, GoInt.min_int, GoInt.max_int. lia. }
  destruct (decide (F <= f <= F + n - 1)) as [Hin|Hout].
  - apply Permutation_singleton_r, NoDup_Permutation.
    + apply NoDup_filter, NoDup_seqZ.
    + apply NoDup_singleton.
    + intros i. rewrite list_elem_of_filter, list_elem_of_singleton, elem_of_seqZ. split.
      * intros [Hk Hi]. rewrite Hkey in Hk by (apply elem_of_seqZ; lia). lia.
      * intros ->. split; [|lia]. rewrite Hkey by (apply elem_of_seqZ; lia). lia.
  - destruct (filter _ _) as [|i l] eqn:E; [done|].
    assert (Hi : i ∈ filter (fun i => GoInt.int (F + i) = f) (seqZ 0 n))
      by (rewrite E; by left).
    apply list_elem_of_filter in Hi as [Hk Hi]. rewrite Hkey in Hk by done.
    apply elem_of_seqZ in Hi. lia.
Qed.

(** ** The handlers as updates of one timeline *)

Lemma set_GrenadeEffects_id m : set_GrenadeEffects (GrenadeEffects m) m = m.
Proof. by destruct m. Qed.

Lemma set_Shots_id m : set_Shots (Shots m) m = m.
Proof. by destruct m. Qed.

Lemma set_Killfeed_id m : set_Killfeed (Killfeed m) m = m.
Proof. by destruct m. Qed.

(** The entries an event of lifetime [n] at frame [F] leaves in the bucket
    of frame [f]. *)
Definition window {A : Type} (F n : Z) (mk : Z -> A) (f : Z) : list A :=
  mk <$> filter (fun i => GoInt.int (F + i) = f) (seqZ 0 n).

Lemma window_range {A : Type} (F n : Z) (mk : Z -> A) (f : Z) :
  0 <= F -> F + n <= 2 ^ 63 ->
  window F n mk f = if decide (F <= f <= F + n - 1) then [mk (f - F)] else [].
Proof.
  intros HF Hn. unfold window. rewrite filter_window by done. by case_decide.
Qed.

Lemma grenadeEventHandler_eq lifetime frame e m :
  grenadeEventHandler lifetime frame e m
  = set_GrenadeEffects
      (fold_left (fun t i => append_at (GoInt.int (frame + i)) (grenadeEffect e i) t)
         (seqZ 0 lifetime) (GrenadeEffects m)) m.
Proof.
  unfold grenadeEventHandler.
  rewrite (for_range_field GrenadeEffects set_GrenadeEffects
             (fun i t => append_at (GoInt.int (frame + i)) (grenadeEffect e i) t)).
  - by rewrite Z.sub_0_r.
  - intros i m'. rewrite <- append_at_eq. by destruct (GrenadeEffects m' !! _).
  - done.
  - done.
  - apply set_GrenadeEffects_id.
Qed.

Lemma shots_loop_eq frame shot lifetime m :
  for_range 0 lifetime (fun i m =>
    match Shots m !! GoInt.int (frame + i) with
    | Some shots => set_Shots (<[GoInt.int (frame + i) := shots ++ [shot]]> (Shots m)) m
    | None => set_Shots (<[GoInt.int (frame + i) := [shot]]> (Shots m)) m
    end) m
  = set_Shots
      (fold_left (fun t i => append_at (GoInt.int (frame + i)) shot t)
         (seqZ 0 lifetime) (Shots m)) m.
Proof.
  rewrite (for_range_field Shots set_Shots
             (fun i t => append_at (GoInt.int (frame + i)) shot t)).
  - by rewrite Z.sub_0_r.
  - intros i m'. rewrite <- append_at_eq. by destruct (Shots m' !! _).
  - done.
  - done.
  - apply set_Shots_id.
Qed.

(** The kill handler's loop body appends and never evicts: the shortened
    bucket it stores first is replaced by the full one with the new entry. *)
Lemma killfeedStep_eq frame kill i m :
  killfeedStep frame kill i m
  = set_Killfeed (append_at (GoInt.int (frame + i)) kill (Killfeed m)) m.
Proof.
  unfold killfeedStep. rewrite <- append_at_eq.
  destruct (Killfeed m !! GoInt.int (frame + i)) as [kills|] eqn:E; [|done].
  destruct (5 <? Z.of_nat (length kills)); [|done].
  cbn. by rewrite insert_insert_eq.
Qed.

Lemma killEventHandler_eq frame e m :
  killEventHandler frame e m
  = set_Killfeed
      (fold_left (fun t i => append_at (GoInt.int (frame + i)) (killOf e) t)
         (seqZ 0 (GoInt.int (FrameRateRounded m * killfeedLifetime))) (Killfeed m)) m.
Proof.
  unfold killEventHandler.
  rewrite (for_range_field Killfeed set_Killfeed
             (fun i t => append_at (GoInt.int (frame + i)) (killOf e) t)).
  - by rewrite Z.sub_0_r.
  - intros i m'. apply killfeedStep_eq.
  - done.
  - done.
  - apply set_Killfeed_id.
Qed.

Lemma clear_loop_eq frame m :
  for_range 1 (SmokeEffectLifetime m) (fun i m =>
    set_GrenadeEffects (<[GoInt.int (frame + i) := []]> (GrenadeEffects m)) m) m
  = set_GrenadeEffects
      (fold_left (fun t i => <[GoInt.int (frame + i) := []]> t)
         (seqZ 1 (SmokeEffectLifetime m - 1)) (GrenadeEffects m)) m.
Proof.
  rewrite (for_range_field GrenadeEffects set_GrenadeEffects
             (fun i t => <[GoInt.int (frame + i) := []]> t)); try done.
  apply set_GrenadeEffects_id.
Qed.

(** What [dispatch] does, by event type. *)
Lemma dispatch_cases d m :
  dispatch d m =
  let frame := CurrentFrame (at_ d) in
  let t := CurrentTime (at_ d) in
  match ev d with
  | event.RoundStart =>
      onRoundStart_clear (at_ d) event.RoundStart
        (set_latestTimerEventTime t
           (set_currentPhase common.PhaseFreezetime
              (set_RoundStarts (RoundStarts m ++ [frame]) m)))
  | event.MatchStart => set_HalfStarts (HalfStarts m ++ [frame]) m
  | event.GameHalfEnded =>
      set_latestTimerEventTime t
        (set_currentPhase common.PhaseHalftime (set_HalfStarts (HalfStarts m ++ [frame]) m))
  | event.WeaponFireEv e => weaponFireEventHandler frame e m
  | event.FlashExplode e => grenadeEventHandler flashEffectLifetime frame e m
  | event.HeExplode e => grenadeEventHandler heEffectLifetime frame e m
  | event.SmokeStart e => grenadeEventHandler (SmokeEffectLifetime m) frame e m
  | event.KillEv e => killEventHandler frame e m
  | event.RoundFreezetimeEnd =>
      set_latestTimerEventTime t (set_currentPhase common.PhaseRegular m)
  | event.BombPlanted =>
      set_latestTimerEventTime t (set_currentPhase common.PhasePlanted m)
  | event.RoundEnd =>
      set_latestTimerEventTime t (set_currentPhase common.PhaseRestart m)
  | event.AnnouncementWinPanelMatch => set_HalfStarts (HalfStarts m ++ [frame]) m
  | event.Other => m
  end.
Proof.
  destruct d as [p e].
  destruct e;
    cbv [dispatch registerEventHandlers fold_left at_ ev
         onRoundStart_frame onMatchStart onGameHalfEnded_frame onWeaponFire
         onFlashExplode onHeExplode onSmokeStart onKill onRoundStart_phase
         onRoundFreezetimeEnd onBombPlanted onRoundEnd onGameHalfEnded_phase
         onAnnouncementWinPanelMatch];
    reflexivity.
Qed.

(** ** The effect timeline of a match *)

(** An entry of one of the three timelines. *)
Inductive Entry :=
| GrenadeEntry (g : common.GrenadeEffect)
| ShotEntry (s : common.Shot)
| KillEntry (k : common.Kill).

Definition isGrenadeEntry (x : Entry) : bool :=
  match x with GrenadeEntry _ => true | _ => false end.

(** Everything the match shows on frame [f]. *)
Definition entriesAt (m : Match) (f : Z) : list Entry :=
  (GrenadeEntry <$> bucket (GrenadeEffects m) f)
  ++ (ShotEntry <$> bucket (Shots m) f)
  ++ (KillEntry <$> bucket (Killfeed m) f).

(** Whether a weapon-fire event leaves a shot: the two early returns of
    [weaponFireEventHandler]. *)
Definition firesShot (e : event.WeaponFire) : option demoinfo.Player :=
  match event.Shooter e with
  | None => None
  | Some shooter =>
      let class := demoinfo.Class (demoinfo.Type_ (event.Weapon e)) in
      if (class =? demoinfo.EqClassEquipment) || (class =? demoinfo.EqClassGrenade)
         || (class =? demoinfo.EqClassUnknown)
      then None else Some shooter
  end.

(** The effect an event registers: its lifetime in frames and the entry it
    leaves at each offset from its own frame. *)
Definition registered (m : Match) (e : event.Event) : option (Z * (Z -> Entry)) :=
  match e with
  | event.FlashExplode g => Some (flashEffectLifetime, fun i => GrenadeEntry (grenadeEffect g i))
  | event.HeExplode g => Some (heEffectLifetime, fun i => GrenadeEntry (grenadeEffect g i))
  | event.SmokeStart g => Some (SmokeEffectLifetime m, fun i => GrenadeEntry (grenadeEffect g i))
  | event.WeaponFireEv w =>
      match firesShot w with
      | Some shooter =>
          let isAwpShot := demoinfo.Type_ (event.Weapon w) =? demoinfo.EqAWP in
          Some (shotLifetime (FrameRate m) isAwpShot, fun _ => ShotEntry (shotOf shooter isAwpShot))
      | None => None
      end
  | event.KillEv k =>
      Some (GoInt.int (FrameRateRounded m * killfeedLifetime), fun _ => KillEntry (killOf k))
  | _ => None
  end.

(** A round start at frame [R] empties the grenade buckets of the frames
    [R + i], [1 <= i < SmokeEffectLifetime]. *)
Definition clears (m : Match) (d : Dispatch) (f : Z) : Prop :=
  match ev d with
  | event.RoundStart =>
      Exists (fun i => GoInt.int (CurrentFrame (at_ d) + i) = f)
        (seqZ 1 (SmokeEffectLifetime m - 1))
  | _ => False
  end.

#[global] Instance clears_dec m d f : Decision (clears m d f).
Proof. unfold clears. destruct (ev d); apply _. Defined.

Lemma clears_iff m d f :
  clears m d f <->
  ev d = event.RoundStart /\
  exists i, 1 <= i < SmokeEffectLifetime m /\ GoInt.int (CurrentFrame (at_ d) + i) = f.
Proof.
  unfold clears. destruct (ev d) eqn:E;
    try (split; [done | by intros [? _]]).
  rewrite Exists_exists. split.
  - intros (i & Hi%elem_of_seqZ & Hk). split; [done|]. exists i. split; [lia | done].
  - intros (_ & i & Hi & Hk). exists i. split; [apply elem_of_seqZ; lia | done].
Qed.

(** What one event leaves on frame [f]. *)
Definition own (m : Match) (d : Dispatch) (f : Z) : list Entry :=
  match registered m (ev d) with
  | Some (L, mk) => window (CurrentFrame (at_ d)) L mk f
  | None => []
  end.

(** The effect of one dispatched event on the entries of frame [f]. *)
Definition stepAt (m : Match) (d : Dispatch) (f : Z) (es : list Entry) : list Entry :=
  if decide (clears m d f) then filter (fun x => ¬ isGrenadeEntry x) es
  else es ++ own m d f.

Lemma filter_grenades (l : list common.GrenadeEffect) :
  filter (fun x => ¬ isGrenadeEntry x) (GrenadeEntry <$> l) = [].
Proof.
  induction l as [|x l IH]; [done|]. rewrite fmap_cons, filter_cons_False; [done|].
  simpl. tauto.
Qed.

Lemma filter_shots (l : list common.Shot) :
  filter (fun x => ¬ isGrenadeEntry x) (ShotEntry <$> l) = ShotEntry <$> l.
Proof.
  induction l as [|x l IH]; [done|]. rewrite fmap_cons, filter_cons_True by (simpl; tauto).
  by rewrite IH.
Qed.

Lemma filter_kills (l : list common.Kill) :
  filter (fun x => ¬ isGrenadeEntry x) (KillEntry <$> l) = KillEntry <$> l.
Proof.
  induction l as [|x l IH]; [done|]. rewrite fmap_cons, filter_cons_True by (simpl; tauto).
  by rewrite IH.
Qed.

(** The handlers leave the three values the lifetimes are computed from. *)
Definition sameRates (m m' : Match) : Prop :=
  FrameRate m' = FrameRate m /\
  FrameRateRounded m' = FrameRateRounded m /\
  SmokeEffectLifetime m' = SmokeEffectLifetime m.

Lemma weaponFireEventHandler_eq frame e m :
  weaponFireEventHandler frame e m
  = match firesShot e with
    | Some shooter =>
        let isAwpShot := demoinfo.Type_ (event.Weapon e) =? demoinfo.EqAWP in
        set_Shots
          (fold_left (fun t i => append_at (GoInt.int (frame + i)) (shotOf shooter isAwpShot) t)
             (seqZ 0 (shotLifetime (FrameRate m) isAwpShot)) (Shots m)) m
    | None => m
    end.
Proof.
  unfold weaponFireEventHandler, firesShot. destruct (event.Shooter e) as [shooter|]; [|done].
  destruct (_ || _); [done|]. apply shots_loop_eq.
Qed.

Lemma dispatch_sameRates d m : sameRates m (dispatch d m).
Proof.
  rewrite dispatch_cases. destruct d as [p e]. unfold sameRates.
  destruct e; cbn [ev at_];
    rewrite ?grenadeEventHandler_eq, ?killEventHandler_eq, ?weaponFireEventHandler_eq;
    try done.
  - unfold onRoundStart_clear. by rewrite clear_loop_eq.
  - by destruct (firesShot e).
Qed.

Lemma dispatchAll_cons d ds m : dispatchAll (d :: ds) m = dispatchAll ds (dispatch d m).
Proof. done. Qed.

Lemma dispatchAll_app ds1 ds2 m :
  dispatchAll (ds1 ++ ds2) m = dispatchAll ds2 (dispatchAll ds1 m).
Proof. apply fold_left_app. Qed.

Lemma dispatchAll_sameRates ds m : sameRates m (dispatchAll ds m).
Proof.
  revert m. induction ds as [|d ds IH]; intros m; [done|].
  rewrite dispatchAll_cons. destruct (IH (dispatch d m)) as (H1 & H2 & H3).
  destruct (dispatch_sameRates d m) as (G1 & G2 & G3).
  unfold sameRates. by rewrite H1, H2, H3.
Qed.

Lemma registered_sameRates m m' e : sameRates m m' -> registered m' e = registered m e.
Proof. intros (H1 & H2 & H3). destruct e; cbn; by rewrite ?H1, ?H2, ?H3. Qed.

Lemma clears_sameRates m m' d f : sameRates m m' -> clears m' d f <-> clears m d f.
Proof. intros (_ & _ & H3). unfold clears. by rewrite H3. Qed.

Lemma stepAt_sameRates m m' d f es : sameRates m m' -> stepAt m' d f es = stepAt m d f es.
Proof.
  intros H. unfold stepAt, own. rewrite (registered_sameRates _ _ _ H).
  apply decide_ext, clears_sameRates, H.
Qed.

Lemma dispatch_entriesAt d m f :
  entriesAt (dispatch d m) f ≡ₚ stepAt m d f (entriesAt m f).
Proof.
  rewrite dispatch_cases. destruct d as [p e]. unfold stepAt, own, entriesAt.
  destruct e; cbn [ev at_ registered];
    try (rewrite decide_False by (unfold clears; cbn; tauto); cbn; by rewrite app_nil_r).
  - (* RoundStart *)
    unfold onRoundStart_clear. rewrite clear_loop_eq. cbn.
    rewrite bucket_fold_clear. unfold clears; cbn [ev at_].
    destruct (decide (Exists _ _)) as [H|H].
    + rewrite !filter_app, filter_grenades, filter_shots, filter_kills. reflexivity.
    + by rewrite app_nil_r.
  - (* WeaponFire *)
    rewrite decide_False by (unfold clears; cbn; tauto).
    rewrite weaponFireEventHandler_eq. destruct (firesShot e) as [shooter|].
    + cbn. rewrite bucket_fold_append, fmap_app. unfold window.
      rewrite <- list_fmap_compose. unfold compose.
      rewrite <- !app_assoc. do 2 apply Permutation_app_head.
      apply Permutation_app_comm.
    + by rewrite app_nil_r.
  - (* FlashExplode *)
    rewrite decide_False by (unfold clears; cbn; tauto).
    rewrite grenadeEventHandler_eq. cbn. rewrite bucket_fold_append, fmap_app. unfold window.
    rewrite <- list_fmap_compose. unfold compose.
    rewrite <- !app_assoc. apply Permutation_app_head.
    rewrite Permutation_app_comm, <- !app_assoc. done.
  - (* HeExplode *)
    rewrite decide_False by (unfold clears; cbn; tauto).
    rewrite grenadeEventHandler_eq. cbn. rewrite bucket_fold_append, fmap_app. unfold window.
    rewrite <- list_fmap_compose. unfold compose.
    rewrite <- !app_assoc. apply Permutation_app_head.
    rewrite Permutation_app_comm, <- !app_assoc. done.
  - (* SmokeStart *)
    rewrite decide_False by (unfold clears; cbn; tauto).
    rewrite grenadeEventHandler_eq. cbn. rewrite bucket_fold_append, fmap_app. unfold window.
    rewrite <- list_fmap_compose. unfold compose.
    rewrite <- !app_assoc. apply Permutation_app_head.
    rewrite Permutation_app_comm, <- !app_assoc. done.
  - (* Kill *)
    rewrite decide_False by (unfold clears; cbn; tauto).
    rewrite killEventHandler_eq. cbn. rewrite bucket_fold_append, fmap_app. unfold window.
    rewrite <- list_fmap_compose. unfold compose.
    by rewrite <- !app_assoc.
Qed.

(** The entries of frame [f] after a run of events, as a fold of [stepAt]. *)
Definition stepsAt (m : Match) (ds : list Dispatch) (f : Z) (es : list Entry) : list Entry :=
  fold_left (fun es d => stepAt m d f es) ds es.

(** Some event of [ds] is a round start that empties the grenade bucket of
    frame [f]. *)
Definition cleared (m : Match) (ds : list Dispatch) (f : Z) : Prop :=
  Exists (fun d => clears m d f) ds.

Lemma stepAt_perm m d f es es' : es ≡ₚ es' -> stepAt m d f es ≡ₚ stepAt m d f es'.
Proof. intros H. unfold stepAt. case_decide; by rewrite H. Qed.

Lemma stepsAt_perm m ds f es es' : es ≡ₚ es' -> stepsAt m ds f es ≡ₚ stepsAt m ds f es'.
Proof.
  revert es es'. induction ds as [|d ds IH]; intros es es' H; [done|].
  apply IH, stepAt_perm, H.
Qed.

Lemma stepsAt_sameRates m m' ds f es :
  sameRates m m' -> stepsAt m' ds f es = stepsAt m ds f es.
Proof.
  intros H. revert es. induction ds as [|d ds IH]; intros es; [done|].
  cbn. rewrite (stepAt_sameRates m m') by done. apply IH.
Qed.

Lemma dispatchAll_entriesAt ds m f :
  entriesAt (dispatchAll ds m) f ≡ₚ stepsAt m ds f (entriesAt m f).
Proof.
  revert m. induction ds as [|d ds IH]; intros m; [done|].
  rewrite dispatchAll_cons, IH.
  rewrite (stepsAt_sameRates m (dispatch d m)) by apply dispatch_sameRates.
  change (stepsAt m (d :: ds) f (entriesAt m f))
    with (stepsAt m ds f (stepAt m d f (entriesAt m f))).
  apply stepsAt_perm, dispatch_entriesAt.
Qed.

Lemma filter_not_grenade_idemp (o : list Entry) :
  filter (fun x => ¬ isGrenadeEntry x) (filter (fun x => ¬ isGrenadeEntry x) o)
  = filter (fun x => ¬ isGrenadeEntry x) o.
Proof.
  induction o as [|x o IH]; [done|]. rewrite filter_cons. case_decide; [|done].
  rewrite filter_cons_True by done. by rewrite IH.
Qed.

(** Entries present before a run of events are carried through it, except
    that a clearing round start drops the grenade effects among them. *)
Lemma stepsAt_extra m ds f es o :
  stepsAt m ds f (es ++ o)
  ≡ₚ stepsAt m ds f es
     ++ (if decide (cleared m ds f) then filter (fun x => ¬ isGrenadeEntry x) o else o).
Proof.
  revert es o. induction ds as [|d ds IH]; intros es o.
  - cbn. rewrite decide_False; [done | by intros ?%Exists_nil].
  - change (stepsAt m (d :: ds) f (es ++ o)) with (stepsAt m ds f (stepAt m d f (es ++ o))).
    change (stepsAt m (d :: ds) f es) with (stepsAt m ds f (stepAt m d f es)).
    unfold stepAt. destruct (decide (clears m d f)) as [Hc|Hc].
    + rewrite filter_app, IH. rewrite (decide_True (P := cleared m (d :: ds) f)) by (by left).
      apply Permutation_app_head.
      destruct (decide (cleared m ds f)); [by rewrite filter_not_grenade_idemp | done].
    + rewrite (stepsAt_perm _ _ _ ((es ++ o) ++ own m d f) ((es ++ own m d f) ++ o)).
      * rewrite IH. apply Permutation_app_head.
        apply reflexive_eq, decide_ext.
        unfold cleared. rewrite Exists_cons. tauto.
      * rewrite <- !app_assoc. apply Permutation_app_head, Permutation_app_comm.
Qed.

Lemma registered_not_clears m d f L mk :
  registered m (ev d) = Some (L, mk) -> ¬ clears m d f.
Proof. intros H. unfold clears. destruct (ev d); cbn in H; try discriminate H; tauto. Qed.

(** ** C1: the frames an effect is shown on *)

Section EffectWindow.
Variables (pre post : list Dispatch) (d : Dispatch) (m : Match).
Variables (L : Z) (mk : Z -> Entry) (f : Z).

Let F := CurrentFrame (at_ d).
Let final := dispatchAll (pre ++ d :: post) m.
Let without := dispatchAll (pre ++ post) m.

(** The effect of [d] is shown on frame [f]: the frame is in the window
    of the effect, and the effect is not a grenade effect whose bucket a
    later round start emptied. *)
Definition shown : Prop :=
  F <= f <= F + L - 1 /\ ¬ (isGrenadeEntry (mk (f - F)) /\ cleared m post f).

#[global] Instance shown_dec : Decision shown.
Proof. unfold shown. apply _. Defined.

Lemma effect_contribution :
  registered m (ev d) = Some (L, mk) ->
  0 <= F -> F + L <= 2 ^ 63 ->
  entriesAt final f ≡ₚ (if decide shown then [mk (f - F)] else []) ++ entriesAt without f.
Proof.
  intros Hreg HF HL. unfold final, without.
  rewrite !dispatchAll_app, dispatchAll_cons.
  set (m1 := dispatchAll pre m).
  assert (Hm1 : sameRates m m1) by apply dispatchAll_sameRates.
  assert (Hm2 : sameRates m (dispatch d m1)).
  { destruct Hm1 as (A1 & A2 & A3), (dispatch_sameRates d m1) as (B1 & B2 & B3).
    unfold sameRates. by rewrite B1, B2, B3. }
  rewrite !dispatchAll_entriesAt.
  rewrite (stepsAt_sameRates m (dispatch d m1)), (stepsAt_sameRates m m1) by done.
  rewrite (stepsAt_perm _ _ _ _ _ (dispatch_entriesAt d m1 f)).
  rewrite (stepAt_sameRates m m1) by done.
  unfold stepAt. rewrite decide_False by (by eapply registered_not_clears).
  rewrite stepsAt_extra, Permutation_app_comm. apply Permutation_app_tail.
  unfold own. rewrite Hreg, window_range by done. fold F.
  apply reflexive_eq.
  destruct (decide shown) as [Hs|Hs]; unfold shown in Hs.
  - rewrite (decide_True (P := F <= f <= F + L - 1)) by tauto.
    destruct (decide (cleared m post f)) as [Hc|Hc]; [|done].
    rewrite filter_cons_True; [done | tauto].
  - destruct (decide (F <= f <= F + L - 1)) as [Hin|Hout].
    + destruct (decide (cleared m post f)) as [Hc|Hc]; [|tauto].
      rewrite filter_cons_False; [done | tauto].
    + by destruct (decide (cleared m post f)).
Qed.

End EffectWindow.

(** C1 (amended).  An event that registers an effect with lifetime [L] at
    frame [F], with [0 <= F] and [F + L <= 2^63], adds exactly one entry to
    the finished timeline of every frame [f] with [F <= f <= F + L - 1]
    (the grenade effect of age [f - F], the shot, or the kill) and none
    to any other frame, compared with the same run of events without it;
    nothing removes shots or kills afterwards.  The exception is a grenade
    effect on a frame whose bucket a later round start empties (the frames
    [R + 1 .. R + SmokeEffectLifetime - 1] after a round start at [R]):
    there the effect is gone from the finished match. *)
Theorem C1_effect_window (pre post : list Dispatch) (d : Dispatch) (m : Match)
    (L : Z) (mk : Z -> Entry) (f : Z) :
  let F := CurrentFrame (at_ d) in
  let final := dispatchAll (pre ++ d :: post) m in
  let without := dispatchAll (pre ++ post) m in
  registered m (ev d) = Some (L, mk) ->
  0 <= F -> F + L <= 2 ^ 63 ->
  (shown post d m L mk f ->
     mk (f - F) ∈ entriesAt final f /\
     entriesAt final f ≡ₚ mk (f - F) :: entriesAt without f) /\
  (¬ shown post d m L mk f -> entriesAt final f ≡ₚ entriesAt without f).
Proof.
  intros F final without Hreg HF HL.
  pose proof (effect_contribution pre post d m L mk f Hreg HF HL) as H.
  fold F final without in H. split; intros Hs.
  - rewrite decide_True in H by done. split; [|done].
    rewrite H. by left.
  - by rewrite decide_False in H.
Qed.

(** ** Sample demos

    Small decoder outputs on which the program is run below. *)

Module Samples.

Definition origin : r3.Vector := {| r3.X := 0%float; r3.Y := 0%float |}.

Definition world (warmup : bool) (conVars : gmap string string) : demoinfo.GameState :=
  {| demoinfo.IngameTick := 0;
     demoinfo.IsWarmupPeriod := warmup;
     demoinfo.ConVars := conVars;
     demoinfo.Playing := [];
     demoinfo.GrenadeProjectiles := [];
     demoinfo.Infernos := [];
     demoinfo.TheBomb := {| demoinfo.Carrier := None; demoinfo.bomb_Position := origin |};
     demoinfo.TeamCounterTerrorists_ := {| demoinfo.ClanName := "CT"; demoinfo.Score := 0 |};
     demoinfo.TeamTerrorists_ := {| demoinfo.ClanName := "T"; demoinfo.Score := 0 |} |}.

Definition conVars : gmap string string :=
  {[ "mp_freezetime"%string := "15"%string;
     "mp_halftime_duration"%string := "15"%string ]}.

Definition at_frame (frame : Z) (e : event.Event) : Dispatch :=
  {| at_ := {| CurrentFrame := frame; CurrentTime := frame * 15625000 |}; ev := e |}.

(** A successful call of [ParseNextFrame] on frame [frame] of a 64 Hz demo. *)
Definition tick (frame : Z) (events : list event.Event) : FrameCall :=
  {| dispatched := at_frame frame <$> events;
     ok := true;
     err := None;
     gameState := world false conVars;
     now := frame * 15625000 |}.

Definition failing (c : FrameCall) (e : string) : FrameCall :=
  {| dispatched := dispatched c; ok := ok c; err := Some e;
     gameState := gameState c; now := now c |}.

Definition demo (frameRate tickRate : float) (calls : list FrameCall) : Demo :=
  {| Open := None;
     ParseHeader := inr {| header_FrameRate := frameRate;
                           header_MapName := "de_dust2";
                           PlaybackFrames := Z.of_nat (length calls) |};
     parser_TickRate := tickRate;
     frames := calls |}.

Definition player (name : string) (team : demoinfo.Team) : demoinfo.Player :=
  {| demoinfo.Name := name;
     demoinfo.SteamID64 := 0;
     demoinfo.Team_ := team;
     demoinfo.Position := origin;
     demoinfo.LastAlivePosition := origin;
     demoinfo.ViewDirectionX := S754_zero false;
     demoinfo.FlashDurationTime := 0;
     demoinfo.FlashDurationTimeRemaining := 0;
     demoinfo.Weapons := [];
     demoinfo.Health := 100;
     demoinfo.Armor := 0;
     demoinfo.Money := 800;
     demoinfo.Kills := 0;
     demoinfo.Deaths := 0;
     demoinfo.Assists := 0;
     demoinfo.IsAlive := true;
     demoinfo.IsDefusing := false;
     demoinfo.HasHelmet := false;
     demoinfo.HasDefuseKit := false |}.

Definition weapon (t : demoinfo.EquipmentType) : demoinfo.Equipment :=
  {| demoinfo.Type_ := t; demoinfo.AmmoReserve := 0 |}.

Definition flash : event.GrenadeEvent :=
  {| event.GrenadeType := demoinfo.EqFlash; event.Position := origin |}.

Definition fire (t : demoinfo.EquipmentType) : event.WeaponFire :=
  {| event.Shooter := Some (player "shooter" demoinfo.TeamTerrorists);
     event.Weapon := weapon t |}.

Definition kill (victim : string) : event.Kill :=
  {| event.Killer := Some (player "killer" demoinfo.TeamTerrorists);
     event.Victim := Some (player victim demoinfo.TeamCounterTerrorists);
     event.kill_Weapon := weapon demoinfo.EqAK47 |}.

(** The match [NewMatch] starts the parse from, for a demo of frame rate
    64 without events. *)
Definition empty64 : Match :=
  {| MapName := "de_dust2";
     MapPZero := point_of origin;
     MapScale := S754_zero false;
     HalfStarts := [];
     RoundStarts := [];
     GrenadeEffects := ∅;
     FrameRate := 64;
     TickRate := 64;
     FrameRateRounded := 64;
     States := [];
     SmokeEffectLifetime := 1152;
     Killfeed := ∅;
     Shots := ∅;
     currentPhase := common.PhaseFreezetime;
     latestTimerEventTime := 0 |}.

(** The match [NewMatch] starts the parse from at the frame rate
    [frameRate], for a map the table does not know. *)
Definition started (frameRate : float) : Match :=
  {| MapName := "de_dust2";
     MapPZero := point_of origin;
     MapScale := S754_zero false;
     HalfStarts := [];
     RoundStarts := [];
     GrenadeEffects := ∅;
     FrameRate := frameRate;
     TickRate := 64;
     FrameRateRounded := GoFloat.to_int (GoFloat.Round frameRate);
     States := [];
     SmokeEffectLifetime := GoFloat.to_int32 (18 * frameRate)%float;
     Killfeed := ∅;
     Shots := ∅;
     currentPhase := common.PhaseFreezetime;
     latestTimerEventTime := 0 |}.

(** [NewMatch] with the declarations it takes from elsewhere fixed: the
    zero phase is the first constant of the enumeration, the table knows
    no map, no float parses. *)
Definition run (d : Demo) (fallbackFrameRate fallbackTickRate : float) :=
  NewMatch common.PhaseFreezetime ∅ (fun _ => 0%float) d fallbackFrameRate fallbackTickRate.

(** The match of a run that returned one. *)
Definition finished (r : Run ((string + Match) * list string)) : option Match :=
  match r with
  | Returns (inr M, _) => Some M
  | _ => None
  end.

End Samples.

(** C1, as the claim states it, fails: a flash grenade explodes on frame 0
    (lifetime 10, so frames 0 to 9) and a round starts on frame 1; the
    finished match shows nothing on frame 5. *)
Lemma C1_counterexample :
  fst <$> registered Samples.empty64 (event.FlashExplode Samples.flash) = Some 10 /\
  0 <= 5 <= 0 + 10 - 1 /\
  (fun M => entriesAt M 5)
    <$> Samples.finished
          (Samples.run
             (Samples.demo 64 64
                [Samples.tick 0 [event.FlashExplode Samples.flash];
                 Samples.tick 1 [event.RoundStart]]) (-1) (-1))
  = Some [].
Proof.
  split; [reflexivity|]. split; [lia|]. vm_compute. reflexivity.
Qed.

Lemma C1_effect_window_witness :
  GrenadeEntry (grenadeEffect Samples.flash (3 - 0))
    ∈ entriesAt (dispatchAll ([] ++ Samples.at_frame 0 (event.FlashExplode Samples.flash) :: [])
                   Samples.empty64) 3.
Proof.
  refine (proj1 (proj1 (C1_effect_window [] [] (Samples.at_frame 0 (event.FlashExplode Samples.flash))
                   Samples.empty64 10 (fun i => GrenadeEntry (grenadeEffect Samples.flash i)) 3
                   _ _ _) _)).
  - reflexivity.
  - cbn. lia.
  - cbn. lia.
  - split; [cbn; lia|]. intros [_ H]. by apply Exists_nil in H.
Defined.

Lemma empty64_is_initial :
  Samples.run (Samples.demo 64 64 []) (-1) (-1) = Returns (inr Samples.empty64, []).
Proof. vm_compute. reflexivity. Qed.

(** ** C2: the kill feed is not capped *)

(** Every kill is appended to the bucket of each frame of its window,
    whatever the bucket holds already: nothing is evicted. *)
Lemma killEventHandler_bucket frame e m f :
  bucket (Killfeed (killEventHandler frame e m)) f
  = bucket (Killfeed m) f
    ++ window frame (GoInt.int (FrameRateRounded m * killfeedLifetime)) (fun _ => killOf e) f.
Proof. rewrite killEventHandler_eq. cbn. apply bucket_fold_append. Qed.

(** C2 (the code at the failing input).  Seven kills on frame 0 of a 64 Hz
    demo: the finished match holds all seven in the bucket of frame 0, the
    oldest one first. *)
Theorem C2_killfeed_exceeds_cap :
  (fun M => (length (bucket (Killfeed M) 0), head (bucket (Killfeed M) 0)))
    <$> Samples.finished
          (Samples.run
             (Samples.demo 64 64
                [Samples.tick 0 (event.KillEv <$>
                   [Samples.kill "v1"; Samples.kill "v2"; Samples.kill "v3"; Samples.kill "v4";
                    Samples.kill "v5"; Samples.kill "v6"; Samples.kill "v7"])]) (-1) (-1))
  = Some (7%nat, Some (killOf (Samples.kill "v1"))).
Proof. vm_compute. reflexivity. Qed.

(** ** C6: the lifetime of a shot *)

(** The lifetime as the specification words it: the quotient rounded to the
    nearest integer, at least one frame. *)
Definition shotLifetime_rounded (frameRate : float) (isAwpShot : bool) : Z :=
  Z.max 1 (GoFloat.to_int
             (GoFloat.Round ((frameRate + 1) / (if isAwpShot then 8 else 32))%float)).

(** C6, as the claim states it, fails in three ways.  At frame rate 60 the
    quotient 61/32 rounds to 2, and the shot of a rifle is entered for one
    frame only.  At frame rate 2 the claimed minimum for a shot of the AWP is
    one frame, and the shot is entered on no frame, not even its own.  At
    the fallback frame rate -100 the quotient is negative and the shot of a
    rifle is entered on no frame either. *)
Lemma C6_counterexample :
  (shotLifetime_rounded 60 false = 2 /\
   shotLifetime 60 false = 1 /\
   (fun M => (length (bucket (Shots M) 0), bucket (Shots M) 1))
     <$> Samples.finished
           (Samples.run
              (Samples.demo 60 64
                 [Samples.tick 0 [event.WeaponFireEv (Samples.fire demoinfo.EqAK47)]])
              (-1) (-1))
   = Some (1%nat, [])) /\
  (shotLifetime_rounded 2 true = 1 /\
   shotLifetime 2 true = 0 /\
   (fun M => bucket (Shots M) 0)
     <$> Samples.finished
           (Samples.run
              (Samples.demo 2 64
                 [Samples.tick 0 [event.WeaponFireEv (Samples.fire demoinfo.EqAWP)]])
              (-1) (-1))
   = Some []) /\
  (shotLifetime_rounded (-100) false = 1 /\
   shotLifetime (-100) false = -3 /\
   (fun M => (FrameRate M, bucket (Shots M) 0))
     <$> Samples.finished
           (Samples.run
              (Samples.demo 0 64
                 [Samples.tick 0 [event.WeaponFireEv (Samples.fire demoinfo.EqAK47)]])
              (-100) (-1))
   = Some ((-100)%float, [])).
Proof.
  repeat split; vm_compute; reflexivity.
Qed.

Lemma firesShot_Some e shooter :
  event.Shooter e = Some shooter ->
  demoinfo.Class (demoinfo.Type_ (event.Weapon e)) <> demoinfo.EqClassEquipment ->
  demoinfo.Class (demoinfo.Type_ (event.Weapon e)) <> demoinfo.EqClassGrenade ->
  demoinfo.Class (demoinfo.Type_ (event.Weapon e)) <> demoinfo.EqClassUnknown ->
  firesShot e = Some shooter.
Proof.
  intros Hs H1 H2 H3. unfold firesShot. rewrite Hs.
  apply Z.eqb_neq in H1, H2, H3. by rewrite H1, H2, H3.
Qed.

Lemma weaponFireEventHandler_bucket frame e shooter m f :
  firesShot e = Some shooter ->
  let isAwpShot := demoinfo.Type_ (event.Weapon e) =? demoinfo.EqAWP in
  bucket (Shots (weaponFireEventHandler frame e m)) f
  = bucket (Shots m) f
    ++ window frame (shotLifetime (FrameRate m) isAwpShot) (fun _ => shotOf shooter isAwpShot) f.
Proof.
  intros Hs isAwpShot. rewrite weaponFireEventHandler_eq, Hs. cbn.
  apply bucket_fold_append.
Qed.

(** The lifetimes at the whole frame rates up to [maxRate], decided by
    running the computation on each. *)
Definition maxRate : Z := 4096.

Definition lifetime_checked (n : Z) : bool :=
  (shotLifetime (GoFloat.of_Z n) false =? Z.max 1 ((n + 1) / 32))
  && (shotLifetime (GoFloat.of_Z n) true =? (n + 1) / 8).

Lemma lifetimes_checked : forallb lifetime_checked (seqZ 0 (maxRate + 1)) = true.
Proof. vm_compute. reflexivity. Qed.

Lemma shotLifetime_whole (n : Z) (isAwpShot : bool) :
  0 <= n <= maxRate ->
  shotLifetime (GoFloat.of_Z n) isAwpShot
  = if isAwpShot then (n + 1) / 8 else Z.max 1 ((n + 1) / 32).
Proof.
  intros Hn. pose proof lifetimes_checked as H.
  rewrite forallb_forall in H. specialize (H n).
  unfold lifetime_checked in H. rewrite andb_true_iff, !Z.eqb_eq in H.
  destruct H as [H1 H2].
  { apply list_elem_of_In, elem_of_seqZ. lia. }
  by destruct isAwpShot.
Qed.

(** The quotient [(frameRate + 1) / k] of float64 numbers, converted by
    [int]: its fraction is dropped. *)
Definition quotient (frameRate k : float) : Z := GoFloat.to_int ((frameRate + 1) / k)%float.

(** [GoFloat.to_int] drops the fraction: on a finite float it is the
    integer part of the magnitude, with the sign, when that is an int. *)
Lemma to_int_finite (x : float) (s : bool) (m : positive) (e : Z) :
  Prim2SF x = S754_finite s m e ->
  let magnitude := if 0 <=? e then Zpos m * 2 ^ e else Zpos m / 2 ^ (- e) in
  let n := if s then - magnitude else magnitude in
  GoInt.is_int n -> GoFloat.to_int x = n.
Proof.
  intros Hx magnitude n Hn. unfold GoFloat.to_int, GoFloat.trunc. rewrite Hx.
  assert (E : match e with
              | Zneg p => Z.shiftr (Zpos m) (Zpos p)
              | _ => Z.shiftl (Zpos m) e
              end = magnitude).
  { unfold magnitude. destruct e as [|p|p].
    - rewrite Z.shiftl_mul_pow2 by lia. reflexivity.
    - rewrite Z.shiftl_mul_pow2 by lia. reflexivity.
    - rewrite Z.shiftr_div_pow2 by lia. reflexivity. }
  rewrite E. fold n. unfold GoInt.is_int in Hn.
  destruct Hn as [H1%Z.leb_le H2%Z.leb_le]. by rewrite H1, H2.
Qed.

(** C6 (amended).  For a weapon-fire event with a shooter and a weapon
    that is not equipment, a grenade or unknown, at any frame rate: the shot
    is entered in the frames [frame .. frame + L - 1] and no other (in none
    when [L <= 0]), where for a weapon other than the AWP [L] is the
    quotient (frameRate+1)/32 with its fraction dropped, and 1 when that is
    0, and for the AWP [L] is the quotient (frameRate+1)/8 with its fraction
    dropped, 0 not replaced.  At a whole frame rate [n] up to 4096 these are
    [max 1 ((n+1) div 32)] and [(n+1) div 8]: 2 and 8 frames at 64. *)
Theorem C6_shot_lifetime (frame : Z) (e : event.WeaponFire) (shooter : demoinfo.Player)
    (m : Match) (f : Z) :
  let isAwpShot := demoinfo.Type_ (event.Weapon e) =? demoinfo.EqAWP in
  let L :=
    if isAwpShot then quotient (FrameRate m) 8
    else if quotient (FrameRate m) 32 =? 0 then 1 else quotient (FrameRate m) 32 in
  event.Shooter e = Some shooter ->
  demoinfo.Class (demoinfo.Type_ (event.Weapon e)) <> demoinfo.EqClassEquipment ->
  demoinfo.Class (demoinfo.Type_ (event.Weapon e)) <> demoinfo.EqClassGrenade ->
  demoinfo.Class (demoinfo.Type_ (event.Weapon e)) <> demoinfo.EqClassUnknown ->
  0 <= frame -> frame + L <= 2 ^ 63 ->
  bucket (Shots (weaponFireEventHandler frame e m)) f
  = bucket (Shots m) f
    ++ (if decide (frame <= f <= frame + L - 1) then [shotOf shooter isAwpShot] else []) /\
  (forall n : Z,
     0 <= n <= maxRate -> FrameRate m = GoFloat.of_Z n ->
     L = if isAwpShot then (n + 1) / 8 else Z.max 1 ((n + 1) / 32)).
Proof.
  intros isAwpShot L Hs H1 H2 H3 Hframe HL.
  assert (EL : shotLifetime (FrameRate m) isAwpShot = L).
  { unfold shotLifetime, L, quotient. by destruct isAwpShot. }
  split.
  - rewrite (weaponFireEventHandler_bucket frame e shooter) by (by apply firesShot_Some).
    fold isAwpShot. rewrite EL, window_range by done. by case_decide.
  - intros n Hn Hrate. rewrite <- EL, Hrate. by apply shotLifetime_whole.
Qed.

Lemma C6_shot_lifetime_witness :
  let m := Samples.started 63.984375 in
  bucket (Shots (weaponFireEventHandler 10 (Samples.fire demoinfo.EqAK47) m)) 11
  = bucket (Shots m) 11
    ++ (if decide (10 <= 11 <= 10 + 2 - 1)
        then [shotOf (Samples.player "shooter" demoinfo.TeamTerrorists) false] else []).
Proof.
  intros m.
  refine (proj1 (C6_shot_lifetime 10 (Samples.fire demoinfo.EqAK47)
                   (Samples.player "shooter" demoinfo.TeamTerrorists) m 11 _ _ _ _ _ _)).
  - reflexivity.
  - vm_compute. discriminate.
  - vm_compute. discriminate.
  - vm_compute. discriminate.
  - lia.
  - vm_compute. discriminate.
Defined.

(** ** C10: the kill-feed entry of a kill *)

Lemma int_add_inj (F i j : Z) :
  0 <= i < 2 ^ 64 -> 0 <= j < 2 ^ 64 -> GoInt.int (F + i) = GoInt.int (F + j) -> i = j.
Proof.
  unfold GoInt.int, GoInt.wrap. intros Hi Hj H.
  pose proof (Z.div_mod (F + i + 2 ^ (64 - 1)) (2 ^ 64) ltac:(lia)) as Ei.
  pose proof (Z.div_mod (F + j + 2 ^ (64 - 1)) (2 ^ 64) ltac:(lia)) as Ej.
  assert (E : (F + i + 2 ^ (64 - 1)) mod 2 ^ 64 = (F + j + 2 ^ (64 - 1)) mod 2 ^ 64) by lia.
  rewrite E in Ei.
  set (qi := (F + i + 2 ^ (64 - 1)) / 2 ^ 64) in *.
  set (qj := (F + j + 2 ^ (64 - 1)) / 2 ^ 64) in *.
  change (2 ^ 64) with 18446744073709551616 in *. lia.
Qed.

(** The bucket of the [i]-th frame of a window, wrap-around included. *)
Lemma window_at {A : Type} (F n : Z) (mk : Z -> A) (i : Z) :
  0 <= i < n -> n <= 2 ^ 63 ->
  window F n mk (GoInt.int (F + i)) = [mk i].
Proof.
  intros Hi Hn. unfold window.
  assert (E : filter (fun j => GoInt.int (F + j) = GoInt.int (F + i)) (seqZ 0 n) = [i]);
    [|by rewrite E].
  apply Permutation_singleton_r, NoDup_Permutation.
  - apply NoDup_filter, NoDup_seqZ.
  - apply NoDup_singleton.
  - intros j. rewrite list_elem_of_filter, list_elem_of_singleton, elem_of_seqZ. split.
    + intros [Hk Hj]. apply (int_add_inj F); [lia | lia | done].
    + intros ->. split; [done | lia].
Qed.

(** C10.  The handler of a kill event appends, to the bucket of every
    frame of its window, an entry whose killer is "World" with the
    unassigned team when the event has no killer and the killer's name and
    team otherwise, likewise for the victim, and whose weapon is the type of
    the event's weapon. *)
Theorem C10_kill_entry (p : Parser) (e : event.Kill) (m : Match) (i : Z) :
  let m' := dispatch {| at_ := p; ev := event.KillEv e |} m in
  let frame := GoInt.int (CurrentFrame p + i) in
  let k := killOf e in
  0 <= i < GoInt.int (FrameRateRounded m * killfeedLifetime) ->
  bucket (Killfeed m') frame = bucket (Killfeed m) frame ++ [k] /\
  common.KillerName k
    = match event.Killer e with
      | None => "World"%string
      | Some killer => demoinfo.Name killer
      end /\
  common.KillerTeam k
    = match event.Killer e with
      | None => demoinfo.TeamUnassigned
      | Some killer => demoinfo.Team_ killer
      end /\
  common.VictimName k
    = match event.Victim e with
      | None => "World"%string
      | Some victim => demoinfo.Name victim
      end /\
  common.VictimTeam k
    = match event.Victim e with
      | None => demoinfo.TeamUnassigned
      | Some victim => demoinfo.Team_ victim
      end /\
  common.Weapon k = demoinfo.Type_ (event.kill_Weapon e).
Proof.
  intros m' frame k Hi. split.
  - unfold m', frame. rewrite dispatch_cases. cbn [ev at_].
    rewrite killEventHandler_bucket, window_at; [done | done |].
    pose proof (int_is_int (FrameRateRounded m * killfeedLifetime)) as H.
    unfold GoInt.is_int, GoInt.max_int in H. lia.
  - unfold k, killOf. by destruct (event.Killer e), (event.Victim e).
Qed.

Lemma C10_kill_entry_witness :
  let e := {| event.Killer := None;
              event.Victim := Some (Samples.player "victim" demoinfo.TeamTerrorists);
              event.kill_Weapon := Samples.weapon demoinfo.EqBomb |} in
  common.KillerName (killOf e) = "World"%string.
Proof.
  intros e.
  refine (proj1 (proj2 (C10_kill_entry {| CurrentFrame := 0; CurrentTime := 0 |} e
                          Samples.empty64 0 _))).
  vm_compute. split; [discriminate | reflexivity].
Defined.

(** ** C4: the phase tracker *)

(** C4.  Dispatching an event sets the tracked phase and the time of the
    last transition as follows: a round start gives the freeze time, the end
    of the freeze time the regular phase, a planted bomb the planted
    phase, a round end the restart phase and the end of a half the half
    time, each with the parser's time during the dispatch; every other event
    leaves both as they were. *)
Theorem C4_phase_transitions (d : Dispatch) (m : Match) :
  (currentPhase (dispatch d m), latestTimerEventTime (dispatch d m))
  = match ev d with
    | event.RoundStart => (common.PhaseFreezetime, CurrentTime (at_ d))
    | event.RoundFreezetimeEnd => (common.PhaseRegular, CurrentTime (at_ d))
    | event.BombPlanted => (common.PhasePlanted, CurrentTime (at_ d))
    | event.RoundEnd => (common.PhaseRestart, CurrentTime (at_ d))
    | event.GameHalfEnded => (common.PhaseHalftime, CurrentTime (at_ d))
    | _ => (currentPhase m, latestTimerEventTime m)
    end.
Proof.
  rewrite dispatch_cases. destruct d as [p e].
  destruct e; cbn [ev at_];
    rewrite ?grenadeEventHandler_eq, ?killEventHandler_eq, ?weaponFireEventHandler_eq;
    try done.
  - unfold onRoundStart_clear. by rewrite clear_loop_eq.
  - by destruct (firesShot e).
Qed.

(** ** The timer and the frame loop *)

Section Frames.

Variable phase0 : common.Phase.
Variable MapNameToMap : gmap string meta.Map.
Variable ParseFloat : string -> float.

Abbreviation timerOf' := (timerOf phase0 ParseFloat).
Abbreviation stateOf' := (stateOf phase0 ParseFloat).
Abbreviation parseLoop' := (parseLoop phase0 ParseFloat).
Abbreviation parseGameStates' := (parseGameStates phase0 ParseFloat).
Abbreviation NewMatch' := (NewMatch phase0 MapNameToMap ParseFloat).

(** The configured length of a phase, in nanoseconds, as [timerOf] computes
    it for the tracked phase. *)
Definition phaseDuration (gs : demoinfo.GameState) (phase : common.Phase) : time.Duration :=
  match phase with
  | common.PhaseFreezetime =>
      GoInt.int64 (strconv.Atoi (conVar gs "mp_freezetime") * time.Second)
  | common.PhaseRegular =>
      GoInt.int64 (GoFloat.to_int (ParseFloat (conVar gs "mp_roundtime_defuse") * 60)%float
                   * time.Second)
  | common.PhasePlanted => GoInt.int64 (c4timer * time.Second)
  | common.PhaseRestart =>
      GoInt.int64 (strconv.Atoi (conVar gs "mp_round_restart_delay") * time.Second)
  | common.PhaseHalftime =>
      GoInt.int64 (strconv.Atoi (conVar gs "mp_halftime_duration") * time.Second)
  | common.PhaseWarmup => 0
  end.

Lemma timerOf_remaining gs now m :
  demoinfo.IsWarmupPeriod gs = false ->
  currentPhase m <> common.PhaseWarmup ->
  common.TimeRemaining (timerOf' gs now m)
  = GoInt.int64 (phaseDuration gs (currentPhase m) - GoInt.int64 (now - latestTimerEventTime m)).
Proof.
  intros Hw Hp. unfold timerOf, phaseDuration. rewrite Hw.
  by destruct (currentPhase m).
Qed.

Lemma phaseDuration_is_int gs phase : GoInt.is_int (phaseDuration gs phase).
Proof.
  destruct phase; cbn; try apply int_is_int.
  unfold GoInt.is_int, GoInt.min_int, GoInt.max_int. lia.
Qed.

Lemma timerOf_exact gs now m :
  demoinfo.IsWarmupPeriod gs = false ->
  currentPhase m <> common.PhaseWarmup ->
  0 <= latestTimerEventTime m <= now -> now <= GoInt.max_int ->
  GoInt.min_int <= phaseDuration gs (currentPhase m) - (now - latestTimerEventTime m) ->
  common.TimeRemaining (timerOf' gs now m)
  = phaseDuration gs (currentPhase m) - (now - latestTimerEventTime m).
Proof.
  intros Hw Hp Hlast Hnow Hmin. rewrite timerOf_remaining by done.
  pose proof (phaseDuration_is_int gs (currentPhase m)) as HD.
  unfold GoInt.is_int, GoInt.min_int, GoInt.max_int in *.
  rewrite (int64_id (now - latestTimerEventTime m));
    [apply int64_id | ]; unfold GoInt.is_int, GoInt.min_int, GoInt.max_int; lia.
Qed.

(** C3.  While the world is not in warm-up, for a tracked phase other than
    the warm-up, a transition time [last] and the configured duration [D]
    of the phase: at instants [last <= now1 < now2] (times are non-negative
    int64 nanoseconds, and [D - (now2 - last)] is an int64) the timer reads
    [D - (now - last)], so it is strictly smaller at [now2] than at [now1];
    and there are inputs on which it is negative. *)
Theorem C3_timer_countdown :
  (forall (gs : demoinfo.GameState) (m : Match) (now1 now2 : time.Duration),
     let D := phaseDuration gs (currentPhase m) in
     let last := latestTimerEventTime m in
     let remaining now := common.TimeRemaining (timerOf' gs now m) in
     demoinfo.IsWarmupPeriod gs = false ->
     currentPhase m <> common.PhaseWarmup ->
     0 <= last <= now1 -> now1 < now2 <= GoInt.max_int ->
     GoInt.min_int <= D - (now2 - last) ->
     remaining now1 = D - (now1 - last) /\
     remaining now2 = D - (now2 - last) /\
     remaining now2 < remaining now1) /\
  (exists (gs : demoinfo.GameState) (m : Match) (now : time.Duration),
     demoinfo.IsWarmupPeriod gs = false /\
     currentPhase m <> common.PhaseWarmup /\
     0 <= latestTimerEventTime m <= now /\
     common.TimeRemaining (timerOf' gs now m) < 0).
Proof.
  split.
  - intros gs m now1 now2 D last remaining Hw Hp H1 H2 Hmin.
    unfold remaining. rewrite !timerOf_exact by (fold D last; lia || done).
    fold D last. lia.
  - exists (Samples.world false Samples.conVars), Samples.empty64, 16000000000.
    split; [done|]. split; [done|]. split; [cbn; lia|].
    vm_compute. reflexivity.
Qed.

(** The calls the loop of [parseGameStates'] runs its body on: those before
    the first one that returns [ok = false]. *)
Fixpoint decoded (calls : list FrameCall) : list FrameCall :=
  match calls with
  | [] => []
  | c :: rest => if ok c then c :: decoded rest else []
  end.

(** One snapshot per decoded frame, in order, none for a frame whose call
    returned an error; the handlers of every call have run before its
    snapshot is taken. *)
Fixpoint snapshots (calls : list FrameCall) (m : Match) : list common.OverviewState :=
  match calls with
  | [] => []
  | c :: rest =>
      let m' := dispatchAll (dispatched c) m in
      match err c with
      | None => stateOf' c m' :: snapshots rest m'
      | Some _ => snapshots rest m'
      end
  end.

Lemma decoded_all_ok calls : Forall (fun c => ok c = true) calls -> decoded calls = calls.
Proof.
  induction 1 as [|c calls Hc _ IH]; [done|]. cbn. by rewrite Hc, IH.
Qed.

Lemma parseLoop_app pre rest acc :
  Forall (fun c => ok c = true) pre ->
  parseLoop' (pre ++ rest) acc = parseLoop' rest (parseLoop' pre acc).
Proof.
  intros H. revert acc. induction H as [|c pre Hc _ IH]; intros acc; [done|].
  cbn. rewrite Hc. destruct (err c); apply IH.
Qed.

Lemma parseLoop_states calls acc :
  states (parseLoop' calls acc) = states acc ++ snapshots (decoded calls) (after acc).
Proof.
  revert acc. induction calls as [|c calls IH]; intros acc; cbn.
  - by rewrite app_nil_r.
  - destruct (ok c); cbn; [|by rewrite app_nil_r].
    destruct (err c); rewrite IH; cbn; [done|]. by rewrite <- app_assoc.
Qed.

Lemma parseLoop_logged calls acc :
  logged (parseLoop' calls acc) = logged acc ++ omap err (decoded calls).
Proof.
  revert acc. induction calls as [|c calls IH]; intros acc; cbn.
  - by rewrite app_nil_r.
  - destruct (ok c); cbn; [|by rewrite app_nil_r].
    destruct (err c); rewrite IH; cbn; [|done]. by rewrite <- app_assoc.
Qed.

Lemma parseLoop_after_ok calls acc :
  Forall (fun c => ok c = true) calls ->
  after (parseLoop' calls acc) = dispatchAll (calls ≫= dispatched) (after acc).
Proof.
  intros H. revert acc. induction H as [|c calls Hc _ IH]; intros acc; [done|].
  cbn. rewrite Hc, dispatchAll_app. destruct (err c); by rewrite IH.
Qed.

Lemma snapshots_length calls m :
  length (snapshots calls m) = length (filter (fun c => err c = None) calls).
Proof.
  revert m. induction calls as [|c calls IH]; intros m; [done|].
  rewrite filter_cons. cbn [snapshots]. destruct (err c) eqn:E.
  - rewrite decide_False by done. apply IH.
  - rewrite decide_True by done. cbn [length]. by rewrite IH.
Qed.

(** The loop body on a call that decodes: one snapshot more, taken after
    the handlers of the call. *)
Lemma parseGameStates_snoc pre c m :
  Forall (fun c => ok c = true) pre -> ok c = true -> err c = None ->
  states (parseGameStates' (pre ++ [c]) m)
  = states (parseGameStates' pre m)
    ++ [stateOf' c (dispatchAll (dispatched c) (after (parseGameStates' pre m)))].
Proof.
  intros Hpre Hc He. unfold parseGameStates.
  rewrite parseLoop_app by done. cbn. by rewrite Hc, He.
Qed.

(** C5.  A frame that decodes while the world reports the warm-up period
    appends a snapshot whose timer is zero with the warm-up phase, whatever
    the tracked phase and the time of the last transition are. *)
Theorem C5_warmup_timer (pre : list FrameCall) (c : FrameCall) (m : Match) :
  Forall (fun c => ok c = true) pre -> ok c = true -> err c = None ->
  demoinfo.IsWarmupPeriod (gameState c) = true ->
  exists s,
    states (parseGameStates' (pre ++ [c]) m) = states (parseGameStates' pre m) ++ [s] /\
    common.Timer_ s = {| common.TimeRemaining := 0; common.Phase_ := common.PhaseWarmup |}.
Proof.
  intros Hpre Hc He Hw. eexists. split; [by apply parseGameStates_snoc|].
  cbn. unfold timerOf. by rewrite Hw.
Qed.

(** C7.  A frame that decodes outside the warm-up period while the tracked
    phase is the half time appends a snapshot whose timer counts down from
    the value of mp_halftime_duration and carries the restart phase. *)
Theorem C7_halftime_timer (pre : list FrameCall) (c : FrameCall) (m : Match) :
  let m' := dispatchAll (dispatched c) (after (parseGameStates' pre m)) in
  let halftimeDuration := strconv.Atoi (conVar (gameState c) "mp_halftime_duration") in
  Forall (fun c => ok c = true) pre -> ok c = true -> err c = None ->
  demoinfo.IsWarmupPeriod (gameState c) = false ->
  currentPhase m' = common.PhaseHalftime ->
  exists s,
    states (parseGameStates' (pre ++ [c]) m) = states (parseGameStates' pre m) ++ [s] /\
    common.Timer_ s
    = {| common.TimeRemaining :=
           GoInt.int64 (GoInt.int64 (halftimeDuration * time.Second)
                        - GoInt.int64 (now c - latestTimerEventTime m'));
         common.Phase_ := common.PhaseRestart |}.
Proof.
  intros m' halftimeDuration Hpre Hc He Hw Hp.
  eexists. split; [by apply parseGameStates_snoc|].
  cbn. fold m'. unfold timerOf. by rewrite Hw, Hp.
Qed.

(** C9.  A call of the decoder that returns an error with [ok = true],
    after calls that all returned [ok = true]: its error is written to the
    log, it adds no snapshot, and the loop goes on with the calls after it,
    each of which adds its snapshot, in order, unless it fails as well,
    until a call returns [ok = false]. *)
Theorem C9_decode_error_skipped (pre post : list FrameCall) (c : FrameCall) (m : Match)
    (e : string) :
  let r0 := parseGameStates' pre m in
  let r := parseGameStates' (pre ++ c :: post) m in
  let m1 := dispatchAll (dispatched c) (after r0) in
  Forall (fun c => ok c = true) pre -> ok c = true -> err c = Some e ->
  states r = states r0 ++ snapshots (decoded post) m1 /\
  logged r = logged r0 ++ e :: omap err (decoded post) /\
  length (snapshots (decoded post) m1)
  = length (filter (fun c => err c = None) (decoded post)).
Proof.
  intros r0 r m1 Hpre Hc He. split; [|split].
  - unfold r, parseGameStates. rewrite parseLoop_app by done.
    cbn. rewrite Hc, He. by rewrite parseLoop_states.
  - unfold r, parseGameStates. rewrite parseLoop_app by done.
    cbn. rewrite Hc, He. rewrite parseLoop_logged. cbn. by rewrite <- app_assoc.
  - apply snapshots_length.
Qed.

(** The events whose handlers run during [parseGameStates]: those of the
    decoded calls and of the call that ends the loop. *)
Fixpoint ingested (calls : list FrameCall) : list Dispatch :=
  match calls with
  | [] => []
  | c :: rest => dispatched c ++ (if ok c then ingested rest else [])
  end.

Lemma parseLoop_after calls acc :
  after (parseLoop' calls acc) = dispatchAll (ingested calls) (after acc).
Proof.
  revert acc. induction calls as [|c calls IH]; intros acc; [done|].
  cbn. rewrite dispatchAll_app. destruct (ok c); [|done].
  destruct (err c); by rewrite IH.
Qed.

Lemma dispatch_TickRate d m : TickRate (dispatch d m) = TickRate m.
Proof.
  rewrite dispatch_cases. destruct d as [p e].
  destruct e; cbn [ev at_];
    rewrite ?grenadeEventHandler_eq, ?killEventHandler_eq, ?weaponFireEventHandler_eq;
    try done.
  - unfold onRoundStart_clear. by rewrite clear_loop_eq.
  - by destruct (firesShot e).
Qed.

Lemma dispatchAll_TickRate ds m : TickRate (dispatchAll ds m) = TickRate m.
Proof.
  revert m. induction ds as [|d ds IH]; intros m; [done|].
  by rewrite dispatchAll_cons, IH, dispatch_TickRate.
Qed.

(** ** C8: frame rate and tick rate *)

(** A rate the demo does not give: NaN or zero. *)
Definition unusable (x : float) : bool := GoFloat.IsNaN x || (x =? 0)%float.

Lemma parseGameStatesOf_eq header calls m :
  parseGameStatesOf phase0 ParseFloat header calls m
  = if PlaybackFrames header <? 0 then Panics else Returns (parseGameStates' calls m).
Proof. unfold parseGameStatesOf, makeStates. by destruct (PlaybackFrames header <? 0). Qed.

(** C8.  For a demo that opens and whose header parses: when the frame
    rate of the header is NaN or zero and the fallback frame rate is -1,
    [NewMatch] returns the error that names the frame rate and no match;
    otherwise, when the tick rate is NaN or zero and the fallback tick rate
    is -1, it returns the error that names the tick rate and no match;
    otherwise the fallback values take the place of the rates that are NaN
    or zero and the construction goes on to parse the frames: it returns a
    match that carries these rates when the header's number of frames is
    not negative, and panics in the allocation of the snapshots when it
    is. *)
Theorem C8_missing_rates (demo : Demo) (header : Header) (fallbackFrameRate fallbackTickRate : float) :
  let frameRate := header_FrameRate header in
  let tickRate := parser_TickRate demo in
  let missingFrameRate := unusable frameRate && (fallbackFrameRate =? -1)%float in
  let missingTickRate := unusable tickRate && (fallbackTickRate =? -1)%float in
  Open demo = None -> ParseHeader demo = inr header ->
  (missingFrameRate = true ->
     NewMatch' demo fallbackFrameRate fallbackTickRate = Returns (inl errFramerate, [])) /\
  (missingFrameRate = false -> missingTickRate = true ->
     NewMatch' demo fallbackFrameRate fallbackTickRate = Returns (inl errTickrate, [])) /\
  (missingFrameRate = false -> missingTickRate = false -> 0 <= PlaybackFrames header ->
     exists M log,
       NewMatch' demo fallbackFrameRate fallbackTickRate = Returns (inr M, log) /\
       FrameRate M = (if unusable frameRate then fallbackFrameRate else frameRate) /\
       TickRate M = (if unusable tickRate then fallbackTickRate else tickRate)) /\
  (missingFrameRate = false -> missingTickRate = false -> PlaybackFrames header < 0 ->
     NewMatch' demo fallbackFrameRate fallbackTickRate = Panics).
Proof.
  intros frameRate tickRate missingFrameRate missingTickRate Hopen Hheader.
  unfold NewMatch. rewrite Hopen, Hheader.
  fold frameRate tickRate. fold (unusable frameRate) (unusable tickRate).
  fold missingFrameRate missingTickRate.
  split; [|split; [|split]].
  - by intros ->.
  - by intros -> ->.
  - intros -> -> Hframes. rewrite parseGameStatesOf_eq.
    rewrite (proj2 (Z.ltb_ge _ _)) by done.
    eexists _, _. split; [reflexivity|].
    cbn. unfold parseGameStates. rewrite parseLoop_after. cbn.
    destruct (dispatchAll_sameRates (ingested (frames demo))
      {| MapName := header_MapName header;
         MapPZero := point_of (meta.PZero (default meta.zero (MapNameToMap !! header_MapName header)));
         MapScale := GoFloat.to_float32 (meta.Scale (default meta.zero (MapNameToMap !! header_MapName header)));
         HalfStarts := []; RoundStarts := []; GrenadeEffects := ∅;
         FrameRate := if unusable frameRate then fallbackFrameRate else frameRate;
         TickRate := if unusable tickRate then fallbackTickRate else tickRate;
         FrameRateRounded :=
           GoFloat.to_int (GoFloat.Round (if unusable frameRate then fallbackFrameRate else frameRate));
         States := [];
         SmokeEffectLifetime :=
           GoFloat.to_int32 (18 * (if unusable frameRate then fallbackFrameRate else frameRate))%float;
         Killfeed := ∅; Shots := ∅; currentPhase := phase0; latestTimerEventTime := 0 |})
      as (H1 & _ & _).
    split; [exact H1|]. by rewrite dispatchAll_TickRate.
  - intros -> -> Hframes. rewrite parseGameStatesOf_eq.
    by rewrite (proj2 (Z.ltb_lt _ _)).
Qed.

End Frames.

(** ** The theorems at the sample demos *)

Lemma C3_timer_countdown_witness :
  let gs := Samples.world false Samples.conVars in
  let m := Samples.empty64 in
  let remaining now := common.TimeRemaining (timerOf common.PhaseFreezetime (fun _ => 0%float) gs now m) in
  remaining 16000000000 = -1000000000 /\ remaining 17000000000 < remaining 16000000000.
Proof.
  intros gs m remaining.
  destruct (proj1 (C3_timer_countdown common.PhaseFreezetime (fun _ => 0%float))
              gs m 16000000000 17000000000) as (H1 & H2 & H3).
  - reflexivity.
  - discriminate.
  - cbn. lia.
  - unfold GoInt.max_int. lia.
  - vm_compute. discriminate.
  - split; [exact H1 | exact H3].
Defined.

Lemma C5_warmup_timer_witness :
  let c := {| dispatched := []; ok := true; err := None;
              gameState := Samples.world true Samples.conVars; now := 0 |} in
  exists s,
    states (parseGameStates common.PhaseFreezetime (fun _ => 0%float) ([] ++ [c]) Samples.empty64)
    = states (parseGameStates common.PhaseFreezetime (fun _ => 0%float) [] Samples.empty64) ++ [s] /\
    common.Timer_ s = {| common.TimeRemaining := 0; common.Phase_ := common.PhaseWarmup |}.
Proof.
  intros c.
  apply (C5_warmup_timer common.PhaseFreezetime (fun _ => 0%float) [] c Samples.empty64).
  - constructor.
  - reflexivity.
  - reflexivity.
  - reflexivity.
Defined.

Lemma C7_halftime_timer_witness :
  let c := Samples.tick 640 [event.GameHalfEnded] in
  exists s,
    states (parseGameStates common.PhaseFreezetime (fun _ => 0%float) ([] ++ [c]) Samples.empty64)
    = states (parseGameStates common.PhaseFreezetime (fun _ => 0%float) [] Samples.empty64) ++ [s] /\
    common.Timer_ s
    = {| common.TimeRemaining :=
           GoInt.int64
             (GoInt.int64 (strconv.Atoi (conVar (gameState c) "mp_halftime_duration") * time.Second)
              - GoInt.int64
                  (now c - latestTimerEventTime
                             (dispatchAll (dispatched c)
                                (after (parseGameStates common.PhaseFreezetime (fun _ => 0%float)
                                          [] Samples.empty64)))));
         common.Phase_ := common.PhaseRestart |}.
Proof.
  intros c.
  apply (C7_halftime_timer common.PhaseFreezetime (fun _ => 0%float) [] c Samples.empty64).
  - constructor.
  - reflexivity.
  - reflexivity.
  - reflexivity.
  - reflexivity.
Defined.

Lemma C9_decode_error_skipped_witness :
  let run := parseGameStates common.PhaseFreezetime (fun _ => 0%float) in
  let c := Samples.failing (Samples.tick 1 []) "decode error" in
  length (states (run ([Samples.tick 0 []] ++ c :: [Samples.tick 2 []]) Samples.empty64)) = 2%nat /\
  logged (run ([Samples.tick 0 []] ++ c :: [Samples.tick 2 []]) Samples.empty64)
  = ["decode error"%string].
Proof.
  intros run c.
  destruct (C9_decode_error_skipped common.PhaseFreezetime (fun _ => 0%float)
              [Samples.tick 0 []] [Samples.tick 2 []] c Samples.empty64 "decode error")
    as (H1 & H2 & H3).
  - repeat constructor.
  - reflexivity.
  - reflexivity.
  - split.
    + unfold run. rewrite H1. reflexivity.
    + unfold run. rewrite H2. reflexivity.
Defined.

Lemma C8_missing_rates_witness :
  Samples.run (Samples.demo nan 64 []) (-1) (-1) = Returns (inl errFramerate, []).
Proof.
  refine (proj1 (C8_missing_rates common.PhaseFreezetime ∅ (fun _ => 0%float)
                   (Samples.demo nan 64 [])
                   {| header_FrameRate := nan; header_MapName := "de_dust2"; PlaybackFrames := 0 |}
                   (-1) (-1) _ _) _).
  - reflexivity.
  - reflexivity.
  - reflexivity.
Defined.

(** * Further properties of the handlers *)

(** ** Which timeline an event touches *)

Definition isGrenadeEvent (e : event.Event) : bool :=
  match e with
  | event.FlashExplode _ | event.HeExplode _ | event.SmokeStart _ => true
  | _ => false
  end.

Definition isRoundStart (e : event.Event) : bool :=
  match e with event.RoundStart => true | _ => false end.

Definition isWeaponFire (e : event.Event) : bool :=
  match e with event.WeaponFireEv _ => true | _ => false end.

Definition isKill (e : event.Event) : bool :=
  match e with event.KillEv _ => true | _ => false end.

Lemma timelines_separate_aux (d : Dispatch) (m : Match) :
  (isWeaponFire (ev d) = false -> Shots (dispatch d m) = Shots m) /\
  (isKill (ev d) = false -> Killfeed (dispatch d m) = Killfeed m) /\
  (isGrenadeEvent (ev d) = false -> isRoundStart (ev d) = false ->
     GrenadeEffects (dispatch d m) = GrenadeEffects m).
Proof.
  rewrite dispatch_cases. destruct d as [p e].
  destruct e; cbn [ev at_ isWeaponFire isKill isGrenadeEvent isRoundStart];
    rewrite ?grenadeEventHandler_eq, ?killEventHandler_eq, ?weaponFireEventHandler_eq;
    try (unfold onRoundStart_clear; rewrite clear_loop_eq);
    try destruct (firesShot e);
    (split; [|split]); try done.
Qed.

(** The three timelines are changed by their own events only: the shots
    by weapon-fire events, the kill feed by kills, the grenade effects by
    grenade events and round starts. *)
Theorem timelines_separate (d : Dispatch) (m : Match) :
  (isWeaponFire (ev d) = false -> Shots (dispatch d m) = Shots m) /\
  (isKill (ev d) = false -> Killfeed (dispatch d m) = Killfeed m) /\
  (isGrenadeEvent (ev d) = false -> isRoundStart (ev d) = false ->
     GrenadeEffects (dispatch d m) = GrenadeEffects m).
Proof. apply timelines_separate_aux. Qed.

Lemma timelines_separate_witness :
  Shots (dispatch (Samples.at_frame 3 (event.KillEv (Samples.kill "v"))) Samples.empty64)
  = Shots Samples.empty64.
Proof.
  apply (proj1 (timelines_separate (Samples.at_frame 3 (event.KillEv (Samples.kill "v")))
                  Samples.empty64)).
  reflexivity.
Defined.

(** ** Shots that are not recorded *)

(** A weapon-fire event without a shooter, or whose weapon is equipment, a
    grenade or of unknown class, changes nothing in the match. *)
Theorem weaponFire_ignored (p : Parser) (e : event.WeaponFire) (m : Match) :
  let class := demoinfo.Class (demoinfo.Type_ (event.Weapon e)) in
  event.Shooter e = None \/ class = demoinfo.EqClassEquipment
    \/ class = demoinfo.EqClassGrenade \/ class = demoinfo.EqClassUnknown ->
  dispatch {| at_ := p; ev := event.WeaponFireEv e |} m = m.
Proof.
  intros class H. rewrite dispatch_cases. cbn [ev at_].
  unfold weaponFireEventHandler. destruct (event.Shooter e) as [shooter|]; [|done].
  fold class. destruct H as [H|[H|[H|H]]]; [done| | |]; rewrite H; cbn;
    by rewrite ?orb_true_r.
Qed.

Lemma weaponFire_ignored_witness :
  dispatch {| at_ := {| CurrentFrame := 5; CurrentTime := 0 |};
              ev := event.WeaponFireEv (Samples.fire demoinfo.EqFlash) |} Samples.empty64
  = Samples.empty64.
Proof.
  apply (weaponFire_ignored {| CurrentFrame := 5; CurrentTime := 0 |}
           (Samples.fire demoinfo.EqFlash) Samples.empty64).
  right. right. left. reflexivity.
Defined.

(** ** What a round start clears *)

Lemma lookup_fold_clear {A : Type} (key : Z -> Z) (l : list Z) (t : gmap Z (list A)) (f : Z) :
  fold_left (fun t i => <[key i := []]> t) l t !! f
  = if decide (Exists (fun i => key i = f) l) then Some [] else t !! f.
Proof.
  revert t. induction l as [|i l IH]; intros t; cbn [fold_left].
  - rewrite decide_False; [done | by intros ?%Exists_nil].
  - rewrite IH. destruct (decide (Exists (fun i => key i = f) l)) as [H|H].
    + rewrite decide_True; [done | by right].
    + destruct (decide (key i = f)) as [<-|Hne].
      * rewrite decide_True by (by left). by rewrite lookup_insert_eq.
      * rewrite decide_False.
        -- by rewrite lookup_insert_ne.
        -- intros [?|?]%Exists_cons; done.
Qed.

(** A round start at frame [R] leaves an empty grenade bucket on each of
    the frames [R+1 .. R+SmokeEffectLifetime-1] and changes no other
    grenade bucket, the one of frame [R] included. *)
Theorem roundStart_clears (p : Parser) (m : Match) (f : Z) :
  let R := CurrentFrame p in
  let m' := dispatch {| at_ := p; ev := event.RoundStart |} m in
  0 <= R -> R + SmokeEffectLifetime m <= 2 ^ 63 ->
  (R < f < R + SmokeEffectLifetime m -> GrenadeEffects m' !! f = Some []) /\
  (¬ (R < f < R + SmokeEffectLifetime m) -> GrenadeEffects m' !! f = GrenadeEffects m !! f).
Proof.
  intros R m' HR HS. unfold m'. rewrite dispatch_cases. cbn [ev at_].
  unfold onRoundStart_clear. rewrite clear_loop_eq. cbn.
  fold R. rewrite lookup_fold_clear.
  assert (Hiff : Exists (fun i => GoInt.int (R + i) = f) (seqZ 1 (SmokeEffectLifetime m - 1))
                 <-> R < f < R + SmokeEffectLifetime m).
  { rewrite Exists_exists. split.
    - intros (i & Hi%elem_of_seqZ & Hk). rewrite int_id in Hk; [lia|].
      unfold GoInt.is_int, GoInt.min_int, GoInt.max_int. lia.
    - intros Hf. exists (f - R). split; [apply elem_of_seqZ; lia|].
      rewrite int_id; [lia|]. unfold GoInt.is_int, GoInt.min_int, GoInt.max_int. lia. }
  split; intros Hf.
  - rewrite decide_True; [done | by apply Hiff].
  - rewrite decide_False; [done | by rewrite Hiff].
Qed.

Lemma roundStart_clears_witness :
  GrenadeEffects (dispatch {| at_ := {| CurrentFrame := 100; CurrentTime := 0 |};
                             ev := event.RoundStart |} Samples.empty64) !! 101
  = Some [].
Proof.
  refine (proj1 (roundStart_clears {| CurrentFrame := 100; CurrentTime := 0 |}
                   Samples.empty64 101 _ _) _).
  - cbn. lia.
  - cbn. lia.
  - cbn. lia.
Defined.

(** ** Round starts and half starts *)

Definition isHalfMark (e : event.Event) : bool :=
  match e with
  | event.MatchStart | event.GameHalfEnded | event.AnnouncementWinPanelMatch => true
  | _ => false
  end.

(** The frames at which the events selected by [P] were dispatched. *)
Definition framesOf (P : event.Event -> bool) (ds : list Dispatch) : list Z :=
  (fun d => CurrentFrame (at_ d)) <$> filter (fun d => P (ev d)) ds.

Lemma dispatch_starts d m :
  RoundStarts (dispatch d m)
  = RoundStarts m ++ (if isRoundStart (ev d) then [CurrentFrame (at_ d)] else []) /\
  HalfStarts (dispatch d m)
  = HalfStarts m ++ (if isHalfMark (ev d) then [CurrentFrame (at_ d)] else []).
Proof.
  rewrite dispatch_cases. destruct d as [p e].
  destruct e; cbn [ev at_ isRoundStart isHalfMark];
    rewrite ?grenadeEventHandler_eq, ?killEventHandler_eq, ?weaponFireEventHandler_eq;
    try (unfold onRoundStart_clear; rewrite clear_loop_eq);
    try destruct (firesShot e);
    cbn; by rewrite ?app_nil_r.
Qed.

(** After any run of events, [RoundStarts] has gained the frames of the
    round starts, and [HalfStarts] the frames of the match starts, half
    ends and win-panel announcements, each in the order of dispatch. *)
Theorem starts_recorded (ds : list Dispatch) (m : Match) :
  RoundStarts (dispatchAll ds m) = RoundStarts m ++ framesOf isRoundStart ds /\
  HalfStarts (dispatchAll ds m) = HalfStarts m ++ framesOf isHalfMark ds.
Proof.
  revert m. induction ds as [|d ds IH]; intros m.
  - cbn. by rewrite !app_nil_r.
  - rewrite dispatchAll_cons. destruct (IH (dispatch d m)) as [H1 H2].
    destruct (dispatch_starts d m) as [G1 G2].
    rewrite H1, H2, G1, G2. unfold framesOf. rewrite !filter_cons.
    destruct (isRoundStart (ev d)), (isHalfMark (ev d)); cbn;
      by rewrite <- ?app_assoc, ?app_nil_r.
Qed.

(** ** The kill feed of a frame *)

(** The kills of a run whose window covers frame [f], in order of dispatch. *)
Definition killsOn (m : Match) (ds : list Dispatch) (f : Z) : list common.Kill :=
  omap (fun d =>
          match ev d with
          | event.KillEv e =>
              if decide (CurrentFrame (at_ d) <= f
                         < CurrentFrame (at_ d) + FrameRateRounded m * killfeedLifetime)
              then Some (killOf e) else None
          | _ => None
          end) ds.

Lemma dispatch_killfeed d m f :
  0 <= CurrentFrame (at_ d) <= 2 ^ 62 ->
  0 <= FrameRateRounded m <= 2 ^ 58 ->
  bucket (Killfeed (dispatch d m)) f = bucket (Killfeed m) f ++ killsOn m [d] f.
Proof.
  intros HF Hn. destruct (ev d) eqn:E;
    try (rewrite (proj1 (proj2 (timelines_separate_aux d m))) by (by rewrite E);
         unfold killsOn; cbn; rewrite E; by rewrite app_nil_r).
  rewrite dispatch_cases, E. rewrite killEventHandler_bucket.
  unfold killfeedLifetime in *.
  rewrite int_id by (unfold GoInt.is_int, GoInt.min_int, GoInt.max_int; lia).
  rewrite window_range by lia. unfold killsOn. cbn. rewrite E.
  unfold killfeedLifetime.
  destruct (decide (CurrentFrame (at_ d) <= f <= _)) as [H|H].
  - rewrite decide_True; [done | lia].
  - rewrite decide_False; [done | lia].
Qed.

(** Frames are at most 2^62 and the rounded frame rate at most 2^58: then
    the kill feed of a frame after a run of events is what it was before
    followed by every kill of the run whose window of
    [10 * FrameRateRounded] frames covers the frame.  No number of entries
    stops the growth. *)
Theorem killfeed_accumulates (ds : list Dispatch) (m : Match) (f : Z) :
  Forall (fun d => 0 <= CurrentFrame (at_ d) <= 2 ^ 62) ds ->
  0 <= FrameRateRounded m <= 2 ^ 58 ->
  bucket (Killfeed (dispatchAll ds m)) f = bucket (Killfeed m) f ++ killsOn m ds f.
Proof.
  intros Hds Hn. revert m Hn. induction Hds as [|d ds Hd _ IH]; intros m Hn.
  - cbn. by rewrite app_nil_r.
  - rewrite dispatchAll_cons.
    destruct (dispatch_sameRates d m) as (_ & Hr & _).
    rewrite IH by (rewrite Hr; exact Hn). rewrite dispatch_killfeed by done.
    rewrite <- app_assoc. f_equal.
    change (d :: ds) with ([d] ++ ds). unfold killsOn. rewrite omap_app.
    by rewrite Hr.
Qed.

Lemma killfeed_accumulates_witness :
  bucket (Killfeed (dispatchAll [Samples.at_frame 0 (event.KillEv (Samples.kill "v1"))]
                      Samples.empty64)) 639
  = bucket (Killfeed Samples.empty64) 639
    ++ killsOn Samples.empty64 [Samples.at_frame 0 (event.KillEv (Samples.kill "v1"))] 639.
Proof.
  apply (killfeed_accumulates [Samples.at_frame 0 (event.KillEv (Samples.kill "v1"))]
           Samples.empty64 639).
  - repeat constructor; cbn; lia.
  - cbn. lia.
Defined.

(** ** The tracked phase over a run of events *)

Definition isPhaseEvent (e : event.Event) : bool :=
  match e with
  | event.RoundStart | event.RoundFreezetimeEnd | event.BombPlanted
  | event.RoundEnd | event.GameHalfEnded => true
  | _ => false
  end.

(** The tracked phase and the time of its transition. *)
Definition tracked (m : Match) : common.Phase * time.Duration :=
  (currentPhase m, latestTimerEventTime m).

Lemma dispatch_tracked_other d m : isPhaseEvent (ev d) = false -> tracked (dispatch d m) = tracked m.
Proof.
  rewrite dispatch_cases. destruct d as [p e]. unfold tracked.
  destruct e; cbn [ev at_ isPhaseEvent]; try discriminate; intros _;
    rewrite ?grenadeEventHandler_eq, ?killEventHandler_eq, ?weaponFireEventHandler_eq;
    try done.
  by destruct (firesShot e).
Qed.

Lemma dispatch_tracked_phase d m m0 :
  isPhaseEvent (ev d) = true -> tracked (dispatch d m) = tracked (dispatch d m0).
Proof.
  rewrite !dispatch_cases. destruct d as [p e]. unfold tracked.
  destruct e; cbn [ev at_ isPhaseEvent]; try discriminate; intros _; try done.
  unfold onRoundStart_clear. by rewrite !clear_loop_eq.
Qed.

Lemma dispatchAll_tracked_other ds m :
  Forall (fun d => isPhaseEvent (ev d) = false) ds -> tracked (dispatchAll ds m) = tracked m.
Proof.
  intros H. revert m. induction H as [|d ds Hd _ IH]; intros m; [done|].
  by rewrite dispatchAll_cons, IH, dispatch_tracked_other.
Qed.

(** The last transition wins: after a run of events, the tracked phase and
    its time are those set by the last phase event of the run, whatever
    came before it. *)
Theorem last_transition_wins (pre post : list Dispatch) (d : Dispatch) (m m0 : Match) :
  isPhaseEvent (ev d) = true ->
  Forall (fun d' => isPhaseEvent (ev d') = false) post ->
  tracked (dispatchAll (pre ++ d :: post) m) = tracked (dispatch d m0) /\
  latestTimerEventTime (dispatchAll (pre ++ d :: post) m) = CurrentTime (at_ d).
Proof.
  intros Hd Hpost. rewrite dispatchAll_app, dispatchAll_cons.
  rewrite dispatchAll_tracked_other by done.
  split; [by apply dispatch_tracked_phase|].
  change (snd (tracked (dispatchAll post (dispatch d (dispatchAll pre m))))
          = CurrentTime (at_ d)).
  rewrite dispatchAll_tracked_other by done.
  rewrite (dispatch_tracked_phase d _ m) by done.
  rewrite dispatch_cases. destruct d as [p e]. unfold tracked.
  destruct e; cbn [ev at_ isPhaseEvent] in *; try discriminate; try done.
  unfold onRoundStart_clear. by rewrite clear_loop_eq.
Qed.

Lemma last_transition_wins_witness :
  latestTimerEventTime
    (dispatchAll ([Samples.at_frame 0 event.RoundStart]
                  ++ Samples.at_frame 960 event.RoundFreezetimeEnd
                  :: [Samples.at_frame 961 (event.KillEv (Samples.kill "v"))])
       Samples.empty64)
  = CurrentTime (at_ (Samples.at_frame 960 event.RoundFreezetimeEnd)).
Proof.
  refine (proj2 (last_transition_wins [Samples.at_frame 0 event.RoundStart]
                   [Samples.at_frame 961 (event.KillEv (Samples.kill "v"))]
                   (Samples.at_frame 960 event.RoundFreezetimeEnd)
                   Samples.empty64 Samples.empty64 _ _)).
  - reflexivity.
  - repeat constructor.
Defined.

(** No handler sets the warm-up phase. *)
Lemma dispatch_not_warmup d m :
  currentPhase (dispatch d m) = common.PhaseWarmup -> currentPhase m = common.PhaseWarmup.
Proof.
  destruct (isPhaseEvent (ev d)) eqn:E.
  - rewrite dispatch_cases. destruct d as [p e].
    destruct e; cbn [ev at_ isPhaseEvent] in *; try discriminate; try done.
    unfold onRoundStart_clear. by rewrite clear_loop_eq.
  - pose proof (dispatch_tracked_other d m E) as H. unfold tracked in H. congruence.
Qed.

Lemma dispatchAll_not_warmup ds m :
  currentPhase (dispatchAll ds m) = common.PhaseWarmup -> currentPhase m = common.PhaseWarmup.
Proof.
  revert m. induction ds as [|d ds IH]; intros m; [done|].
  rewrite dispatchAll_cons. intros H. apply (dispatch_not_warmup d), IH, H.
Qed.

(** * Further properties of the frame loop and of NewMatch *)

Section Finished.

Variable phase0 : common.Phase.
Variable MapNameToMap : gmap string meta.Map.
Variable ParseFloat : string -> float.

Abbreviation timerOf' := (timerOf phase0 ParseFloat).
Abbreviation stateOf' := (stateOf phase0 ParseFloat).
Abbreviation parseLoop' := (parseLoop phase0 ParseFloat).
Abbreviation parseGameStates' := (parseGameStates phase0 ParseFloat).
Abbreviation NewMatch' := (NewMatch phase0 MapNameToMap ParseFloat).

(** ** The end of the loop *)

(** The loop ends at the first call that returns [ok = false]: the
    handlers of that call have run, but it adds no snapshot, an error it
    returns is not logged, and the calls after it are never made. *)
Theorem loop_stops (pre post : list FrameCall) (c : FrameCall) (m : Match) :
  let r0 := parseGameStates' pre m in
  Forall (fun c => ok c = true) pre -> ok c = false ->
  parseGameStates' (pre ++ c :: post) m
  = {| states := states r0;
       after := dispatchAll (dispatched c) (after r0);
       logged := logged r0 |}.
Proof.
  intros r0 Hpre Hc. unfold parseGameStates.
  rewrite (parseLoop_app phase0 ParseFloat) by done. cbn. by rewrite Hc.
Qed.

(** ** What NewMatch returns *)

(** The match [NewMatch] builds before it parses the frames. *)
Definition startOf (header : Header) (frameRate tickRate : float) : Match :=
  let map := default meta.zero (MapNameToMap !! header_MapName header) in
  {| MapName := header_MapName header;
     MapPZero := point_of (meta.PZero map);
     MapScale := GoFloat.to_float32 (meta.Scale map);
     HalfStarts := [];
     RoundStarts := [];
     GrenadeEffects := ∅;
     FrameRate := frameRate;
     TickRate := tickRate;
     FrameRateRounded := GoFloat.to_int (GoFloat.Round frameRate);
     States := [];
     SmokeEffectLifetime := GoFloat.to_int32 (18 * frameRate)%float;
     Killfeed := ∅;
     Shots := ∅;
     currentPhase := phase0;
     latestTimerEventTime := 0 |}.

(** The four errors [NewMatch] returns, the match it returns otherwise,
    and its panic. *)
Inductive Outcome (demo : Demo) (fallbackFrameRate fallbackTickRate : float)
  : Run ((string + Match) * list string) -> Prop :=
| OpenFails e :
    Open demo = Some e ->
    Outcome demo fallbackFrameRate fallbackTickRate (Returns (inl e, []))
| HeaderFails e :
    Open demo = None -> ParseHeader demo = inl e ->
    Outcome demo fallbackFrameRate fallbackTickRate (Returns (inl e, []))
| NoFrameRate header :
    Open demo = None -> ParseHeader demo = inr header ->
    unusable (header_FrameRate header) = true -> (fallbackFrameRate =? -1)%float = true ->
    Outcome demo fallbackFrameRate fallbackTickRate (Returns (inl errFramerate, []))
| NoTickRate header :
    Open demo = None -> ParseHeader demo = inr header ->
    unusable (header_FrameRate header) && (fallbackFrameRate =? -1)%float = false ->
    unusable (parser_TickRate demo) = true -> (fallbackTickRate =? -1)%float = true ->
    Outcome demo fallbackFrameRate fallbackTickRate (Returns (inl errTickrate, []))
| Parsed_ header :
    Open demo = None -> ParseHeader demo = inr header ->
    unusable (header_FrameRate header) && (fallbackFrameRate =? -1)%float = false ->
    unusable (parser_TickRate demo) && (fallbackTickRate =? -1)%float = false ->
    0 <= PlaybackFrames header ->
    let frameRate :=
      if unusable (header_FrameRate header) then fallbackFrameRate
      else header_FrameRate header in
    let tickRate :=
      if unusable (parser_TickRate demo) then fallbackTickRate else parser_TickRate demo in
    let r := parseGameStates' (frames demo) (startOf header frameRate tickRate) in
    Outcome demo fallbackFrameRate fallbackTickRate
      (Returns (inr (set_States (states r) (after r)), logged r))
| AllocationPanics header :
    Open demo = None -> ParseHeader demo = inr header ->
    unusable (header_FrameRate header) && (fallbackFrameRate =? -1)%float = false ->
    unusable (parser_TickRate demo) && (fallbackTickRate =? -1)%float = false ->
    PlaybackFrames header < 0 ->
    Outcome demo fallbackFrameRate fallbackTickRate Panics.

Lemma NewMatch_outcome demo fallbackFrameRate fallbackTickRate :
  Outcome demo fallbackFrameRate fallbackTickRate
    (NewMatch' demo fallbackFrameRate fallbackTickRate).
Proof.
  unfold NewMatch.
  destruct (Open demo) as [e|] eqn:Ho; [by apply OpenFails|].
  destruct (ParseHeader demo) as [e|header] eqn:Hh; [by apply HeaderFails|].
  fold (unusable (header_FrameRate header)) (unusable (parser_TickRate demo)).
  destruct (unusable (header_FrameRate header) && (fallbackFrameRate =? -1)%float) eqn:HF.
  { apply andb_true_iff in HF as [? ?]. by eapply NoFrameRate. }
  destruct (unusable (parser_TickRate demo) && (fallbackTickRate =? -1)%float) eqn:HT.
  { apply andb_true_iff in HT as [? ?]. by eapply NoTickRate. }
  rewrite (parseGameStatesOf_eq phase0 ParseFloat).
  destruct (PlaybackFrames header <? 0) eqn:Hfr.
  - apply Z.ltb_lt in Hfr. by apply (AllocationPanics demo fallbackFrameRate fallbackTickRate header).
  - apply Z.ltb_ge in Hfr. by apply (Parsed_ demo fallbackFrameRate fallbackTickRate header).
Qed.

(** [NewMatch] returns a match exactly when the demo opens, its header
    parses, neither rate is missing (NaN or zero without a fallback) and
    the number of frames in the header is not negative; it panics exactly
    when all of this holds but the last; when it returns an error, nothing
    was logged. *)
Theorem NewMatch_succeeds_iff (demo : Demo) (fallbackFrameRate fallbackTickRate : float) :
  let r := NewMatch' demo fallbackFrameRate fallbackTickRate in
  let parses header :=
    Open demo = None /\ ParseHeader demo = inr header /\
    unusable (header_FrameRate header) && (fallbackFrameRate =? -1)%float = false /\
    unusable (parser_TickRate demo) && (fallbackTickRate =? -1)%float = false in
  ((exists M log, r = Returns (inr M, log)) <->
   exists header, parses header /\ 0 <= PlaybackFrames header) /\
  (r = Panics <-> exists header, parses header /\ PlaybackFrames header < 0) /\
  (forall e log, r = Returns (inl e, log) -> log = []).
Proof.
  intros r parses. unfold r, parses.
  destruct (NewMatch_outcome demo fallbackFrameRate fallbackTickRate)
    as [e Ho | e Ho Hh | header Ho Hh HF1 HF2 | header Ho Hh HF HT1 HT2
        | header Ho Hh HF HT Hfr | header Ho Hh HF HT Hfr].
  - split; [|split].
    + split; [by intros (M & log & ?) | intros (h & (? & _) & _); congruence].
    + split; [done | intros (h & (? & _) & _); congruence].
    + by intros e' log [= _ <-].
  - split; [|split].
    + split; [by intros (M & log & ?) | intros (h & (_ & ? & _) & _); congruence].
    + split; [done | intros (h & (_ & ? & _) & _); congruence].
    + by intros e' log [= _ <-].
  - assert (Hno : forall h, ParseHeader demo = inr h ->
                    unusable (header_FrameRate h) && (fallbackFrameRate =? -1)%float = false ->
                    False).
    { intros h Hh' HF'. assert (h = header) as -> by congruence.
      by rewrite HF1, HF2 in HF'. }
    split; [|split].
    + split; [by intros (M & log & ?) | intros (h & (_ & Hh' & HF' & _) & _); destruct (Hno h Hh' HF')].
    + split; [done | intros (h & (_ & Hh' & HF' & _) & _); destruct (Hno h Hh' HF')].
    + by intros e' log [= _ <-].
  - assert (Hno : unusable (parser_TickRate demo) && (fallbackTickRate =? -1)%float = false ->
                  False) by (by rewrite HT1, HT2).
    split; [|split].
    + split; [by intros (M & log & ?) | intros (h & (_ & _ & _ & HT') & _); destruct (Hno HT')].
    + split; [done | intros (h & (_ & _ & _ & HT') & _); destruct (Hno HT')].
    + by intros e' log [= _ <-].
  - split; [|split].
    + split; [intros _; by exists header | intros _; by eexists _, _].
    + split; [done|]. intros (h & (_ & Hh' & _) & Hneg).
      assert (h = header) as -> by congruence. lia.
    + intros e' log H. discriminate H.
  - split; [|split].
    + split; [by intros (M & log & ?)|]. intros (h & (_ & Hh' & _) & Hpos).
      assert (h = header) as -> by congruence. lia.
    + split; [intros _; by exists header | done].
    + intros e' log H. discriminate H.
Qed.

(** The finished match has one snapshot for every call the loop decoded
    without an error, and the log holds the errors of the other decoded
    calls, in order. *)
Theorem NewMatch_snapshots (demo : Demo) (fallbackFrameRate fallbackTickRate : float)
    (M : Match) (log : list string) :
  NewMatch' demo fallbackFrameRate fallbackTickRate = Returns (inr M, log) ->
  length (States M) = length (filter (fun c => err c = None) (decoded (frames demo))) /\
  log = omap err (decoded (frames demo)).
Proof.
  intros H.
  destruct (NewMatch_outcome demo fallbackFrameRate fallbackTickRate)
    as [| | | | header Ho Hh HF HT Hfr frameRate tickRate r |]; try discriminate H.
  injection H as <- <-. unfold r, parseGameStates. cbn.
  rewrite (parseLoop_states phase0 ParseFloat), (parseLoop_logged phase0 ParseFloat). cbn.
  split; [apply snapshots_length | done].
Qed.

(** ** The phase a snapshot shows *)

Lemma timerOf_tag gs now m :
  (currentPhase m = common.PhaseWarmup -> phase0 = common.PhaseWarmup) ->
  common.Phase_ (timerOf' gs now m) <> common.PhaseHalftime.
Proof.
  intros H. unfold timerOf. destruct (demoinfo.IsWarmupPeriod gs); [done|].
  destruct (currentPhase m); try done. cbn. by rewrite H.
Qed.

Lemma snapshots_tag calls m :
  (currentPhase m = common.PhaseWarmup -> phase0 = common.PhaseWarmup) ->
  Forall (fun s => common.Phase_ (common.Timer_ s) <> common.PhaseHalftime)
    (snapshots phase0 ParseFloat calls m).
Proof.
  revert m. induction calls as [|c calls IH]; intros m Hm; [constructor|].
  cbn [snapshots].
  assert (Hm' : currentPhase (dispatchAll (dispatched c) m) = common.PhaseWarmup
                -> phase0 = common.PhaseWarmup)
    by (intros H; by apply Hm, (dispatchAll_not_warmup (dispatched c))).
  destruct (err c); [by apply IH|].
  constructor; [by apply timerOf_tag | by apply IH].
Qed.

(** No snapshot of a finished match shows the half-time phase: while the
    half time is tracked the timer carries the restart phase, and no other
    case of the timer produces it. *)
Theorem no_halftime_snapshot (demo : Demo) (fallbackFrameRate fallbackTickRate : float)
    (M : Match) (log : list string) :
  NewMatch' demo fallbackFrameRate fallbackTickRate = Returns (inr M, log) ->
  Forall (fun s => common.Phase_ (common.Timer_ s) <> common.PhaseHalftime) (States M).
Proof.
  intros H.
  destruct (NewMatch_outcome demo fallbackFrameRate fallbackTickRate)
    as [| | | | header Ho Hh HF HT Hfr frameRate tickRate r |]; try discriminate H.
  injection H as <- <-. unfold r, parseGameStates. cbn.
  rewrite (parseLoop_states phase0 ParseFloat). cbn. by apply snapshots_tag.
Qed.

(** ** The rates of a finished match *)

Lemma NewMatch_rates demo fallbackFrameRate fallbackTickRate M log :
  NewMatch' demo fallbackFrameRate fallbackTickRate = Returns (inr M, log) ->
  FrameRateRounded M = GoFloat.to_int (GoFloat.Round (FrameRate M)) /\
  SmokeEffectLifetime M = GoFloat.to_int32 (18 * FrameRate M)%float.
Proof.
  intros H.
  destruct (NewMatch_outcome demo fallbackFrameRate fallbackTickRate)
    as [| | | | header Ho Hh HF HT Hfr frameRate tickRate r |]; try discriminate H.
  injection H as <- <-. unfold r, parseGameStates. cbn.
  rewrite (parseLoop_after phase0 ParseFloat). cbn.
  destruct (dispatchAll_sameRates (ingested (frames demo)) (startOf header frameRate tickRate))
    as (H1 & H2 & H3).
  by rewrite H1, H2, H3.
Qed.

Definition rates_checked (n : Z) : bool :=
  (GoFloat.to_int (GoFloat.Round (GoFloat.of_Z n)) =? n)
  && (GoFloat.to_int32 (18 * GoFloat.of_Z n)%float =? 18 * n).

Lemma rates_all_checked : forallb rates_checked (seqZ 0 (maxRate + 1)) = true.
Proof. vm_compute. reflexivity. Qed.

(** In a finished match whose frame rate is a whole number [n] up to 4096,
    the rounded frame rate is [n] and a smoke lasts [18 * n] frames, so a
    kill is shown for [10 * n] frames; no event changes either. *)
Theorem whole_frame_rate (demo : Demo) (fallbackFrameRate fallbackTickRate : float)
    (M : Match) (log : list string) (n : Z) :
  NewMatch' demo fallbackFrameRate fallbackTickRate = Returns (inr M, log) ->
  0 <= n <= maxRate -> FrameRate M = GoFloat.of_Z n ->
  FrameRateRounded M = n /\ SmokeEffectLifetime M = 18 * n.
Proof.
  intros H Hn Hrate. destruct (NewMatch_rates _ _ _ _ _ H) as [H1 H2].
  rewrite H1, H2, Hrate.
  pose proof rates_all_checked as Hc. rewrite forallb_forall in Hc.
  specialize (Hc n). unfold rates_checked in Hc.
  rewrite andb_true_iff, !Z.eqb_eq in Hc. apply Hc.
  apply list_elem_of_In, elem_of_seqZ. lia.
Qed.

(** ** Timers without configuration *)

(** The console variable that gives the length of a phase. *)
Definition conVarOf (phase : common.Phase) : option string :=
  match phase with
  | common.PhaseFreezetime => Some "mp_freezetime"%string
  | common.PhaseRestart => Some "mp_round_restart_delay"%string
  | common.PhaseHalftime => Some "mp_halftime_duration"%string
  | _ => None
  end.

(** When the console variable of the tracked phase is not set, the phase
    counts as having no length: outside the warm-up period the timer reads
    minus the time since the transition, which is never positive. *)
Theorem timer_without_conVar (gs : demoinfo.GameState) (now : time.Duration) (m : Match)
    (name : string) :
  demoinfo.IsWarmupPeriod gs = false ->
  conVarOf (currentPhase m) = Some name ->
  demoinfo.ConVars gs !! name = None ->
  0 <= latestTimerEventTime m <= now -> now <= GoInt.max_int ->
  common.TimeRemaining (timerOf' gs now m) = - (now - latestTimerEventTime m).
Proof.
  intros Hw Hname Hunset Hlast Hnow.
  assert (E : conVar gs name = ""%string) by (unfold conVar; by rewrite Hunset).
  rewrite (timerOf_remaining phase0 ParseFloat);
    [| done | intros Hc; rewrite Hc in Hname; discriminate].
  assert (HD : phaseDuration ParseFloat gs (currentPhase m) = 0).
  { destruct (currentPhase m); cbn in Hname; try discriminate;
      injection Hname as <-; cbn [phaseDuration]; by rewrite E. }
  rewrite HD, (int64_id (now - _)), int64_id;
    unfold GoInt.is_int, GoInt.min_int, GoInt.max_int in *; lia.
Qed.

(** While the planted phase is tracked, outside the warm-up period, the
    timer counts down from 40 seconds whatever the console variables say. *)
Theorem planted_timer (gs : demoinfo.GameState) (now : time.Duration) (m : Match) :
  demoinfo.IsWarmupPeriod gs = false ->
  currentPhase m = common.PhasePlanted ->
  0 <= latestTimerEventTime m <= now -> now <= GoInt.max_int ->
  timerOf' gs now m
  = {| common.TimeRemaining := 40000000000 - (now - latestTimerEventTime m);
       common.Phase_ := common.PhasePlanted |}.
Proof.
  intros Hw Hp Hlast Hnow. unfold timerOf. rewrite Hw, Hp. f_equal.
  change (GoInt.int64 (c4timer * time.Second)) with 40000000000.
  rewrite (int64_id (now - _)), int64_id;
    unfold GoInt.is_int, GoInt.min_int, GoInt.max_int in *; lia.
Qed.

End Finished.

(** * Further properties of the snapshots *)

(** ** The inventory of a player *)

(** What one held item adds to the inventory: nothing unless it is a
    weapon or a grenade, its type twice for a flash grenade with reserve
    ammunition, its type once otherwise. *)
Definition listed (w : demoinfo.Equipment) : list demoinfo.EquipmentType :=
  if isWeaponOrGrenade (demoinfo.Type_ w) then
    if (demoinfo.Type_ w =? demoinfo.EqFlash) && (0 <? demoinfo.AmmoReserve w)
    then [demoinfo.Type_ w; demoinfo.Type_ w] else [demoinfo.Type_ w]
  else [].

Definition holdsBomb (w : demoinfo.Equipment) : bool := demoinfo.Type_ w =? demoinfo.EqBomb.

Lemma scanWeapons_eq ws : scanWeapons ws = (existsb holdsBomb ws, ws ≫= listed).
Proof.
  unfold scanWeapons.
  enough (H : forall b inv,
             fold_left (fun '(hasBomb, inventory) w =>
               let hasBomb := if demoinfo.Type_ w =? demoinfo.EqBomb then true else hasBomb in
               let inventory :=
                 if isWeaponOrGrenade (demoinfo.Type_ w) then
                   let inventory :=
                     if (demoinfo.Type_ w =? demoinfo.EqFlash) && (0 <? demoinfo.AmmoReserve w)
                     then inventory ++ [demoinfo.Type_ w] else inventory in
                   inventory ++ [demoinfo.Type_ w]
                 else inventory in
               (hasBomb, inventory)) ws (b, inv)
             = (b || existsb holdsBomb ws, inv ++ (ws ≫= listed))) by apply (H false []).
  induction ws as [|w ws IH]; intros b inv.
  - cbn. by rewrite orb_false_r, app_nil_r.
  - cbn [fold_left]. rewrite IH. cbn [existsb mbind list_bind]. unfold holdsBomb at 2, listed at 2.
    f_equal.
    + destruct (demoinfo.Type_ w =? demoinfo.EqBomb), b; cbn; done.
    + destruct (isWeaponOrGrenade (demoinfo.Type_ w)); [|done].
      destruct (_ && _); cbn; by rewrite <- ?app_assoc.
Qed.

(** The inventory of a player in a snapshot is in ascending order of
    equipment type and holds exactly what the player's weapons and grenades
    list, a flash grenade with reserve ammunition twice; the bomb flag is set
    exactly when one of the held items is the bomb. *)
Theorem inventory_sorted (p : demoinfo.Player) :
  Sorted Z.le (common.Inventory (playerOf p)) /\
  common.Inventory (playerOf p) ≡ₚ demoinfo.Weapons p ≫= listed /\
  (common.HasBomb (playerOf p) = true <->
   exists w, w ∈ demoinfo.Weapons p /\ demoinfo.Type_ w = demoinfo.EqBomb).
Proof.
  unfold playerOf. rewrite scanWeapons_eq. cbn. split; [|split].
  - apply Sorted_merge_sort. apply _.
  - apply merge_sort_Permutation.
  - rewrite existsb_exists. split.
    + intros (w & Hw & Hb). exists w. split; [by apply list_elem_of_In|].
      by apply Z.eqb_eq.
    + intros (w & Hw & Hb). exists w. split; [by apply list_elem_of_In|].
      by apply Z.eqb_eq.
Qed.

(** ** The numbers of a player *)

Definition statsOf (p : common.Player) : list Z :=
  [common.Health p; common.Armor p; common.Money p;
   common.Kills p; common.Deaths p; common.Assists p].

Definition decodedStats (p : demoinfo.Player) : list Z :=
  [demoinfo.Health p; demoinfo.Armor p; demoinfo.Money p;
   demoinfo.Kills p; demoinfo.Deaths p; demoinfo.Assists p].

Lemma int16_range (x : Z) : -32768 <= GoInt.int16 x <= 32767.
Proof.
  unfold GoInt.int16, GoInt.wrap.
  pose proof (Z.mod_pos_bound (x + 2 ^ (16 - 1)) (2 ^ 16) ltac:(lia)). lia.
Qed.

Lemma int16_id (x : Z) : -32768 <= x <= 32767 -> GoInt.int16 x = x.
Proof. intros H. unfold GoInt.int16, GoInt.wrap. rewrite Z.mod_small; lia. Qed.

(** Health, armor, money, kills, deaths and assists of a player are kept
    as 16-bit integers: every one of them is between -32768 and 32767 in the
    snapshot, and equal to the decoder's number when that is. *)
Theorem stats_int16 (p : demoinfo.Player) :
  Forall (fun v => -32768 <= v <= 32767) (statsOf (playerOf p)) /\
  (Forall (fun v => -32768 <= v <= 32767) (decodedStats p) ->
   statsOf (playerOf p) = decodedStats p).
Proof.
  unfold playerOf. destruct (scanWeapons (demoinfo.Weapons p)) as [hasBomb inventory].
  unfold statsOf, decodedStats. cbn. split.
  - repeat (constructor; [apply int16_range|]). constructor.
  - intros H. repeat (apply Forall_cons in H as [? H]). by rewrite !int16_id.
Qed.

(** * Coordinates *)

(** [Translate] and [TranslateScale], in float32 arithmetic. *)
Definition Translate (m : Match) (x y : float32) : float32 * float32 :=
  (SFsub 24 128 x (common.X (MapPZero m)), SFsub 24 128 (common.Y (MapPZero m)) y).

Definition TranslateScale (m : Match) (x y : float32) : float32 * float32 :=
  let '(x, y) := Translate m x y in
  (SFdiv 24 128 x (MapScale m), SFdiv 24 128 y (MapScale m)).

(** The origin of the map is translated to (0, 0). *)
Theorem Translate_origin (m : Match) (s1 s2 : bool) (m1 m2 : positive) (e1 e2 : Z) :
  MapPZero m = {| common.X := S754_finite s1 m1 e1; common.Y := S754_finite s2 m2 e2 |} ->
  Translate m (S754_finite s1 m1 e1) (S754_finite s2 m2 e2)
  = (S754_zero false, S754_zero false).
Proof.
  intros H. unfold Translate. rewrite H. cbn [common.X common.Y].
  unfold SFsub. by rewrite !Z.sub_diag.
Qed.

Lemma dispatch_map d m :
  MapName (dispatch d m) = MapName m /\
  MapPZero (dispatch d m) = MapPZero m /\
  MapScale (dispatch d m) = MapScale m.
Proof.
  rewrite dispatch_cases. destruct d as [p e].
  destruct e; cbn [ev at_];
    rewrite ?grenadeEventHandler_eq, ?killEventHandler_eq, ?weaponFireEventHandler_eq;
    try done.
  - unfold onRoundStart_clear. by rewrite clear_loop_eq.
  - by destruct (firesShot e).
Qed.

Lemma dispatchAll_map ds m :
  MapName (dispatchAll ds m) = MapName m /\
  MapPZero (dispatchAll ds m) = MapPZero m /\
  MapScale (dispatchAll ds m) = MapScale m.
Proof.
  revert m. induction ds as [|d ds IH]; intros m; [done|].
  rewrite dispatchAll_cons. destruct (IH (dispatch d m)) as (H1 & H2 & H3).
  destruct (dispatch_map d m) as (G1 & G2 & G3). by rewrite H1, H2, H3.
Qed.

(** A map the table of maps does not know: the finished match has the
    origin (0, 0) and the scale 0, so [TranslateScale] divides by zero and
    sends every finite point off both axes to infinity. *)
Theorem unknown_map_scale (phase0 : common.Phase) (MapNameToMap : gmap string meta.Map)
    (ParseFloat : string -> float) (demo : Demo) (header : Header)
    (fallbackFrameRate fallbackTickRate : float) (M : Match) (log : list string)
    (sx sy : bool) (mx my : positive) (ex ey : Z) :
  NewMatch phase0 MapNameToMap ParseFloat demo fallbackFrameRate fallbackTickRate
  = Returns (inr M, log) ->
  ParseHeader demo = inr header ->
  MapNameToMap !! header_MapName header = None ->
  MapPZero M = {| common.X := S754_zero false; common.Y := S754_zero false |} /\
  MapScale M = S754_zero false /\
  TranslateScale M (S754_finite sx mx ex) (S754_finite sy my ey)
  = (S754_infinity sx, S754_infinity (negb sy)).
Proof.
  intros H Hh Hmap.
  destruct (NewMatch_outcome phase0 MapNameToMap ParseFloat demo fallbackFrameRate fallbackTickRate)
    as [| | | | header' Ho Hh' HF HT Hfr frameRate tickRate r |]; try discriminate H.
  injection H as <- <-. assert (header' = header) as -> by congruence.
  unfold TranslateScale, Translate. cbn [MapPZero MapScale set_States].
  unfold r, parseGameStates. rewrite (parseLoop_after phase0 ParseFloat). cbn [after].
  destruct (dispatchAll_map (ingested (frames demo))
              (startOf phase0 MapNameToMap header frameRate tickRate)) as (_ & H2 & H3).
  rewrite H2, H3. unfold startOf. cbn [MapPZero MapScale]. rewrite Hmap.
  split; [reflexivity|]. split; [reflexivity|].
  cbn. by destruct sx, sy.
Qed.

(** * The further properties at sample demos *)

(** A 64 Hz demo of three frames: a round starts, the half ends, and a
    frame without events follows. *)
Definition halfDemo : Demo :=
  Samples.demo 64 64
    [Samples.tick 0 [event.RoundStart]; Samples.tick 1 [event.GameHalfEnded]; Samples.tick 2 []].

Definition halfMatch : Match :=
  default Samples.empty64 (Samples.finished (Samples.run halfDemo (-1) (-1))).

Lemma halfDemo_run :
  Samples.run halfDemo (-1) (-1) = Returns (inr halfMatch, []).
Proof. vm_compute. reflexivity. Defined.

Lemma loop_stops_witness :
  let stop := {| dispatched := []; ok := false; err := Some "unexpected end of demo"%string;
                 gameState := Samples.world false Samples.conVars; now := 0 |} in
  parseGameStates common.PhaseFreezetime (fun _ => 0%float)
    ([Samples.tick 0 []] ++ stop :: [Samples.tick 2 []]) Samples.empty64
  = {| states := states (parseGameStates common.PhaseFreezetime (fun _ => 0%float)
                           [Samples.tick 0 []] Samples.empty64);
       after := dispatchAll (dispatched stop)
                  (after (parseGameStates common.PhaseFreezetime (fun _ => 0%float)
                            [Samples.tick 0 []] Samples.empty64));
       logged := logged (parseGameStates common.PhaseFreezetime (fun _ => 0%float)
                           [Samples.tick 0 []] Samples.empty64) |}.
Proof.
  intros stop.
  apply (loop_stops common.PhaseFreezetime (fun _ => 0%float)
           [Samples.tick 0 []] [Samples.tick 2 []] stop Samples.empty64).
  - repeat constructor.
  - reflexivity.
Defined.

Lemma NewMatch_snapshots_witness :
  length (States halfMatch)
  = length (filter (fun c => err c = None) (decoded (frames halfDemo))) /\
  [] = omap err (decoded (frames halfDemo)).
Proof.
  apply (NewMatch_snapshots common.PhaseFreezetime ∅ (fun _ => 0%float) halfDemo (-1) (-1)).
  exact halfDemo_run.
Defined.

Lemma no_halftime_snapshot_witness :
  Forall (fun s => common.Phase_ (common.Timer_ s) <> common.PhaseHalftime) (States halfMatch).
Proof.
  apply (no_halftime_snapshot common.PhaseFreezetime ∅ (fun _ => 0%float) halfDemo (-1) (-1)
           halfMatch []).
  exact halfDemo_run.
Defined.

Lemma whole_frame_rate_witness :
  FrameRateRounded halfMatch = 64 /\ SmokeEffectLifetime halfMatch = 18 * 64.
Proof.
  apply (whole_frame_rate common.PhaseFreezetime ∅ (fun _ => 0%float) halfDemo (-1) (-1)
           halfMatch [] 64).
  - exact halfDemo_run.
  - unfold maxRate. lia.
  - vm_compute. reflexivity.
Defined.

Lemma timer_without_conVar_witness :
  common.TimeRemaining
    (timerOf common.PhaseFreezetime (fun _ => 0%float) (Samples.world false ∅)
       1000000000 Samples.empty64)
  = - (1000000000 - latestTimerEventTime Samples.empty64).
Proof.
  apply (timer_without_conVar common.PhaseFreezetime (fun _ => 0%float)
           (Samples.world false ∅) 1000000000 Samples.empty64 "mp_freezetime").
  - reflexivity.
  - reflexivity.
  - reflexivity.
  - cbn. lia.
  - unfold GoInt.max_int. lia.
Defined.

Lemma planted_timer_witness :
  let m := dispatch (Samples.at_frame 64 event.BombPlanted) Samples.empty64 in
  timerOf common.PhaseFreezetime (fun _ => 0%float) (Samples.world false Samples.conVars)
    2000000000 m
  = {| common.TimeRemaining := 40000000000 - (2000000000 - latestTimerEventTime m);
       common.Phase_ := common.PhasePlanted |}.
Proof.
  intros m.
  apply (planted_timer common.PhaseFreezetime (fun _ => 0%float)
           (Samples.world false Samples.conVars) 2000000000 m).
  - reflexivity.
  - reflexivity.
  - vm_compute. split; discriminate.
  - unfold GoInt.max_int. lia.
Defined.

Lemma Translate_origin_witness :
  let m := set_States [] Samples.empty64 in
  let one := S754_finite false 8388608 (-23) in
  MapPZero (Build_Match (MapName m) {| common.X := one; common.Y := one |} (MapScale m)
              (HalfStarts m) (RoundStarts m) (GrenadeEffects m) (FrameRate m) (TickRate m)
              (FrameRateRounded m) (States m) (SmokeEffectLifetime m) (Killfeed m) (Shots m)
              (currentPhase m) (latestTimerEventTime m))
  = {| common.X := one; common.Y := one |} /\
  Translate (Build_Match (MapName m) {| common.X := one; common.Y := one |} (MapScale m)
              (HalfStarts m) (RoundStarts m) (GrenadeEffects m) (FrameRate m) (TickRate m)
              (FrameRateRounded m) (States m) (SmokeEffectLifetime m) (Killfeed m) (Shots m)
              (currentPhase m) (latestTimerEventTime m)) one one
  = (S754_zero false, S754_zero false).
Proof.
  intros m one. split; [reflexivity|].
  apply (Translate_origin _ false false 8388608 8388608 (-23) (-23)). reflexivity.
Defined.

Lemma unknown_map_scale_witness :
  TranslateScale halfMatch (S754_finite false 8388608 (-23)) (S754_finite false 8388608 (-23))
  = (S754_infinity false, S754_infinity (negb false)).
Proof.
  refine (proj2 (proj2 (unknown_map_scale common.PhaseFreezetime ∅ (fun _ => 0%float) halfDemo
                          {| header_FrameRate := 64; header_MapName := "de_dust2";
                             PlaybackFrames := 3 |}
                          (-1) (-1) halfMatch []
                          false false 8388608 8388608 (-23) (-23) _ _ _))).
  - exact halfDemo_run.
  - reflexivity.
  - reflexivity.
Defined.

(** * Timelines without events *)

Lemma dispatchAll_separate ds m :
  (Forall (fun d => isWeaponFire (ev d) = false) ds -> Shots (dispatchAll ds m) = Shots m) /\
  (Forall (fun d => isKill (ev d) = false) ds -> Killfeed (dispatchAll ds m) = Killfeed m) /\
  (Forall (fun d => isGrenadeEvent (ev d) = false /\ isRoundStart (ev d) = false) ds ->
     GrenadeEffects (dispatchAll ds m) = GrenadeEffects m).
Proof.
  revert m. induction ds as [|d ds IH]; intros m; [done|].
  rewrite dispatchAll_cons. destruct (IH (dispatch d m)) as (H1 & H2 & H3).
  destruct (timelines_separate_aux d m) as (G1 & G2 & G3).
  split; [|split]; intros [Hd Hds]%Forall_cons.
  - by rewrite H1, G1.
  - by rewrite H2, G2.
  - destruct Hd. by rewrite H3, G3.
Qed.

(** The timelines of a finished match come from events only: without a
    weapon-fire event among the handled events there is no shot on any
    frame, without a kill no kill-feed entry, and without a grenade event
    and a round start no grenade bucket. *)
Theorem no_events_no_entries (phase0 : common.Phase) (MapNameToMap : gmap string meta.Map)
    (ParseFloat : string -> float) (demo : Demo)
    (fallbackFrameRate fallbackTickRate : float) (M : Match) (log : list string) :
  NewMatch phase0 MapNameToMap ParseFloat demo fallbackFrameRate fallbackTickRate
  = Returns (inr M, log) ->
  let handled := ingested (frames demo) in
  (Forall (fun d => isWeaponFire (ev d) = false) handled -> Shots M = ∅) /\
  (Forall (fun d => isKill (ev d) = false) handled -> Killfeed M = ∅) /\
  (Forall (fun d => isGrenadeEvent (ev d) = false /\ isRoundStart (ev d) = false) handled ->
     GrenadeEffects M = ∅).
Proof.
  intros H handled.
  destruct (NewMatch_outcome phase0 MapNameToMap ParseFloat demo fallbackFrameRate fallbackTickRate)
    as [| | | | header Ho Hh HF HT Hfr frameRate tickRate r |]; try discriminate H.
  injection H as <- <-.
  assert (E : after r = dispatchAll handled (startOf phase0 MapNameToMap header frameRate tickRate))
    by apply (parseLoop_after phase0 ParseFloat).
  destruct (dispatchAll_separate handled (startOf phase0 MapNameToMap header frameRate tickRate))
    as (H1 & H2 & H3).
  cbn [Shots Killfeed GrenadeEffects set_States]. rewrite E.
  split; [|split]; intros Hds.
  - by rewrite H1.
  - by rewrite H2.
  - by rewrite H3.
Qed.

Lemma no_events_no_entries_witness :
  Killfeed halfMatch = ∅.
Proof.
  refine (proj1 (proj2 (no_events_no_entries common.PhaseFreezetime ∅ (fun _ => 0%float)
                          halfDemo (-1) (-1) halfMatch
                          [] _)) _).
  - exact halfDemo_run.
  - repeat constructor.
Defined.
